(** * Government Document Processor: a shallow embedding of [app_deploy.py]

    The script is a Streamlit page: it checks for an API key, draws a text
    box, a file uploader and a button, and on a button press extracts text
    from the uploaded file ([extract_text_from_pdf]), sends it with a fixed
    prompt to a hosted model ([extract_json_from_text]) and displays the
    answer.

    The embedding keeps the control flow of the script.  The collaborators
    the script calls (the environment, the file system, pdfplumber, PIL,
    the hosted model) and the limits of the interpreter it runs on are
    the fields of a record [World]; every call the script makes is
    written to a trace of [event]s, and a computation ends by returning,
    by raising a Python exception or by [st.stop()]. *)

From Stdlib Require Import NArith Ascii String List Lia ZifyN.
From stdpp Require Import base option list gmap.

Local Open Scope N_scope.
Set Warnings "-register-all".

(** ** Python strings

    A Python [str] is a sequence of Unicode code points; a code point is a
    number.  [lit] reads an ASCII literal of the source. *)

Abbreviation str := (list N).

Definition lit (s : string) : str := N_of_ascii <$> list_ascii_of_string s.
Arguments lit _%_string : simpl never.

(** The characters the source writes with an escape, and the two it writes
    outside ASCII. *)
Definition NL : str := [10].          (* newline *)
Definition DQ : str := [34].          (* double quote *)
Definition EM_DASH : str := [8212].   (* U+2014 *)

(** [bool(s)] for a string: the empty string is false. *)
Definition truthy (s : str) : bool :=
  match s with [] => false | _ :: _ => true end.

(** [str.isspace] on one code point: the code points Python's [strip]
    removes (Unicode White_Space as CPython lists them). *)
Definition isspace (c : N) : bool :=
  ((9 <=? c) && (c <=? 13)) || ((28 <=? c) && (c <=? 32))
  || (c =? 133) || (c =? 160) || (c =? 5760)
  || ((8192 <=? c) && (c <=? 8202))
  || (c =? 8232) || (c =? 8233) || (c =? 8239) || (c =? 8287) || (c =? 12288).

Fixpoint lstrip (s : str) : str :=
  match s with
  | c :: s' => if isspace c then lstrip s' else s
  | [] => []
  end.

Definition rstrip (s : str) : str := reverse (lstrip (reverse s)).

(** [s.strip()]: the left end first, then the right end of what is left. *)
Definition strip (s : str) : str := rstrip (lstrip s).

(** [s.lower()].  Only the ASCII letters are mapped: the one use in the
    script compares the end of the result with the ASCII literal [".pdf"],
    and no code point outside ASCII has a lower-case form that ends in one
    of the characters [.], [p], [d], [f], so that test reads the same. *)
Definition lower_char (c : N) : N :=
  if (65 <=? c) && (c <=? 90) then c + 32 else c.

Definition lower (s : str) : str := lower_char <$> s.

(** [s.endswith(suffix)]: the last [len(suffix)] characters are [suffix]. *)
Definition endswith (s suffix : str) : bool :=
  bool_decide (drop (length s - length suffix) s = suffix).

(** [s.startswith(prefix)]. *)
Definition startswith (s prefix : str) : bool :=
  bool_decide (take (length prefix) s = prefix).

(** [sep.join(parts)]. *)
Fixpoint join (sep : str) (parts : list str) : str :=
  match parts with
  | [] => []
  | [p] => p
  | p :: rest => p ++ sep ++ join sep rest
  end.

(** [os.path.join(a, b)] on POSIX paths: an absolute [b] replaces [a],
    and a separator goes in between unless [a] is empty or ends in one. *)
Definition os_path_join (a b : str) : str :=
  if startswith b (lit "/") then b
  else if negb (truthy a) || endswith a (lit "/") then a ++ b
  else a ++ lit "/" ++ b.

(** ** JSON values

    The values [json.dumps] prints and [json.loads] builds.  A number
    keeps its lexeme; an object keeps its members in insertion order, as a
    Python [dict] does. *)

Inductive json :=
| JNull
| JBool (b : bool)
| JNumber (lexeme : str)
| JString (s : str)
| JArray (items : list json)
| JObject (members : list (str * json)).

(** ** Effects *)

(** A Python exception of class [Exception]; [exn_str e] is [str(e)].
    What is no [Exception] (an interrupt of the process) is left out. *)
Record exn := Exception { exn_str : str }.

(** A page of an opened PDF: [page.extract_text()] raises, or returns
    [None] or a string. *)
Record Page := { extract_text : exn + option str }.

(** An uploaded file as Streamlit hands it over. *)
Record UploadedFile := {
  uf_name : str;        (* uploaded_file.name *)
  uf_type : str;        (* uploaded_file.type, the declared MIME type *)
  uf_buffer : list N    (* uploaded_file.getbuffer(), the bytes *)
}.

(** The calls the script makes, in the order it makes them. *)
Inductive event :=
| st_error (msg : str)
| st_stop
| genai_configure (api_key : str)
| st_set_page_config (page_title layout : str)
| st_title (s : str)
| st_info (s : str)
| st_text_area_input (label placeholder : str)
| st_file_uploader (label : str) (types : list str)
| st_button (label : str)
| os_makedirs (path : str)
| file_write (path : str) (data : list N)
| pdfplumber_open (path : str)
| page_extract_text (index : nat)
| Image_open (path : str)
| genai_GenerativeModel (model_name : str)
| generate_content (model_name prompt text : str)
| st_subheader (s : str)
| st_text_area (label value : str)
| st_spinner (s : str)
| st_json (v : json)
| st_text (s : str)
| st_warning (s : str)
| st_sidebar_markdown (s : str).

(** What the script's collaborators answer, each at the time the script
    calls it: a file is opened after the button has saved it.  The last
    two fields are the limits of the interpreter that [json.loads]
    meets. *)
Record World := {
  (** [os.environ] once [load_dotenv()] has run *)
  environ : gmap str str;
  (** [os.makedirs(path, exist_ok=True)]: [Some e] when it raises *)
  fs_makedirs : str -> option exn;
  (** [open(path, mode wb)] and the write: [Some e] when it raises *)
  fs_write : str -> option exn;
  (** [pdfplumber.open(path)] and its [pages] *)
  pdf_pages : str -> exn + list Page;
  (** [Image.open(path)]: [Some e] when it raises *)
  image_error : str -> option exn;
  (** [model.generate_content([prompt, text])] and [response.text] *)
  gemini : str -> str -> str -> exn + str;
  (** [sys.get_int_max_str_digits()]: the longest decimal integer [int]
      converts, [0] where there is no limit (4300 unless it is set) *)
  int_max_str_digits : N;
  (** how many arrays and objects, one inside the other, [json.loads] can
      enter where the script calls it before Python's recursion limit is
      reached *)
  recursion_limit : N
}.

(** How a computation ends: it returns, it raises, or [st.stop()] ended
    the run of the script. *)
Inductive outcome (A : Type) :=
| Return (a : A)
| Raise (e : exn)
| Stopped.
Arguments Return {A} a.
Arguments Raise {A} e.
Arguments Stopped {A}.

(** A computation: the calls it made and how it ended. *)
Definition M (A : Type) : Type := list event * outcome A.

Definition ret {A} (a : A) : M A := ([], Return a).

Definition bind {A B} (m : M A) (k : A -> M B) : M B :=
  match m with
  | (t, Return a) => let '(t', o) := k a in (t ++ t', o)
  | (t, Raise e) => (t, Raise e)
  | (t, Stopped) => (t, Stopped)
  end.

(** One call that returns nothing. *)
Definition call (e : event) : M unit := ([e], Return tt).

Definition raise {A} (e : exn) : M A := ([], Raise e).

(** [try: m  except Exception as e: handler e].  [st.stop()] is no
    [Exception] and passes through. *)
Definition try_except {A} (m : M A) (handler : exn -> M A) : M A :=
  match m with
  | (t, Raise e) => let '(t', o) := handler e in (t ++ t', o)
  | _ => m
  end.

(** The monad structure, with stdpp's notation [x ← m; k] and [m ;; k]. *)
#[global] Instance M_ret : MRet M := @ret.
#[global] Instance M_bind : MBind M := fun A B k m => bind m k.

Definition trace {A} (m : M A) : list event := fst m.
Definition result {A} (m : M A) : outcome A := snd m.

(** ** The collaborators' calls *)

Definition answer {A} (ev : event) (r : exn + A) : M A :=
  ([ev], match r with inl e => Raise e | inr a => Return a end).

Definition failing (ev : event) (r : option exn) : M unit :=
  ([ev], match r with Some e => Raise e | None => Return tt end).

(** [pdfplumber.open(file_path)] with its [pages]. *)
Definition call_pdfplumber_open (w : World) (file_path : str) : M (list Page) :=
  answer (pdfplumber_open file_path) (pdf_pages w file_path).

(** [page.extract_text()] on the page of index [i]. *)
Definition call_extract_text (i : nat) (page : Page) : M (option str) :=
  answer (page_extract_text i) (extract_text page).

(** [Image.open(file_path)]. *)
Definition call_Image_open (w : World) (file_path : str) : M unit :=
  failing (Image_open file_path) (image_error w file_path).

(** ** Text extraction: [extract_text_from_pdf] *)

Definition SCANNED_PAGE : str :=
  lit "[Scanned page - OCR not available in cloud deployment]".

Definition IMAGE_UPLOADED : str :=
  lit "[Image uploaded - OCR processing not available in cloud deployment. Please provide text input instead.]".

(** The body of [for page in pdf.pages], from the page of index [i] on:
    [text] grows by the page's text and a newline, or by the scanned-page
    line when [page_text] is [None] or empty. *)
Fixpoint for_pages (i : nat) (pages : list Page) (text : str) : M str :=
  match pages with
  | [] => mret text
  | page :: rest =>
      page_text ← call_extract_text i page;
      match page_text with
      | Some t =>
          if truthy t then for_pages (S i) rest (text ++ (t ++ NL))
          else for_pages (S i) rest (text ++ (SCANNED_PAGE ++ NL))
      | None => for_pages (S i) rest (text ++ (SCANNED_PAGE ++ NL))
      end
  end.

Definition extract_text_from_pdf (w : World) (file_path : str) : M str :=
  let text : str := [] in
  text ←
    (if endswith (lower file_path) (lit ".pdf") then
       try_except
         (pages ← call_pdfplumber_open w file_path;
          for_pages 0 pages text)
         (fun e => mret (lit "Error reading PDF: " ++ exn_str e))
     else
       try_except
         (call_Image_open w file_path;;
          mret IMAGE_UPLOADED)
         (fun e => mret (lit "Error reading image: " ++ exn_str e)));
  mret (strip text).

(** ** [json.dumps] *)

Definition hex_digit (d : N) : N := if d <? 10 then 48 + d else 87 + d.

(** Four lower-case hexadecimal digits, as the format [04x] prints a
    number below 65536. *)
Definition hex4 (n : N) : str :=
  [hex_digit (n / 4096 mod 16); hex_digit (n / 256 mod 16);
   hex_digit (n / 16 mod 16); hex_digit (n mod 16)].

(** One character of a string as [json.dumps] writes it with its default
    [ensure_ascii]: the short escapes, printable ASCII as it is, and a
    [\u] escape for everything else, a surrogate pair above U+FFFF. *)
Definition encode_char (c : N) : str :=
  if c =? 34 then [92; 34]
  else if c =? 92 then [92; 92]
  else if c =? 10 then [92; 110]
  else if c =? 13 then [92; 114]
  else if c =? 9 then [92; 116]
  else if c =? 8 then [92; 98]
  else if c =? 12 then [92; 102]
  else if (32 <=? c) && (c <=? 126) then [c]
  else if c <? 65536 then [92; 117] ++ hex4 c
  else
    let v := c - 65536 in
    let s1 := N.lor 55296 (N.land (N.shiftr v 10) 1023) in
    let s2 := N.lor 56320 (N.land v 1023) in
    [92; 117] ++ hex4 s1 ++ [92; 117] ++ hex4 s2.

Definition encode_string (s : str) : str := DQ ++ flat_map encode_char s ++ DQ.

(** [json.dumps(v)] with the default separators. *)
Fixpoint json_dumps (v : json) : str :=
  match v with
  | JNull => lit "null"
  | JBool true => lit "true"
  | JBool false => lit "false"
  | JNumber lexeme => lexeme
  | JString s => encode_string s
  | JArray items => lit "[" ++ join (lit ", ") (json_dumps <$> items) ++ lit "]"
  | JObject members =>
      lit "{"
      ++ join (lit ", ")
           ((fun m => encode_string (fst m) ++ lit ": " ++ json_dumps (snd m))
              <$> members)
      ++ lit "}"
  end.

(** ** [json.loads]

    The decoder reads the text one character at a time into tokens, and
    the tokens one at a time into a value.  Both readers are automata, so
    each is a structural recursion over its input.  [json_decode] is the
    grammar; [json_loads] is the call, which also raises where the text
    goes beyond a limit of the interpreter. *)

Inductive token :=
| T_lbrace | T_rbrace | T_lbracket | T_rbracket | T_colon | T_comma
| T_value (v : json).   (* a string, a number or a constant *)

(** Where the reader stands inside a number. *)
Inductive num_phase :=
| N_minus | N_zero | N_int | N_dot | N_frac | N_e | N_esign | N_exp.

Inductive lex_state :=
| L_start                                           (* between tokens *)
| L_str (acc : str) (hi : option N)                 (* inside a string *)
| L_esc (acc : str) (hi : option N)                 (* after a backslash *)
| L_uni (acc : str) (hi : option N) (more : nat) (v : N) (* inside \uXXXX *)
| L_word (rest : str) (tok : token)                 (* inside true, null, ... *)
| L_num (ph : num_phase) (lexeme : str).            (* inside a number *)

Definition hexval (c : N) : option N :=
  if (48 <=? c) && (c <=? 57) then Some (c - 48)
  else if (97 <=? c) && (c <=? 102) then Some (c - 87)
  else if (65 <=? c) && (c <=? 70) then Some (c - 55)
  else None.

Definition is_digit (c : N) : bool := (48 <=? c) && (c <=? 57).
Definition is_high_surrogate (u : N) : bool := (55296 <=? u) && (u <=? 56319).
Definition is_low_surrogate (u : N) : bool := (56320 <=? u) && (u <=? 57343).

Definition join_surrogates (h l : N) : N :=
  65536 + ((h - 55296) * 1024 + (l - 56320)).

(** A high surrogate read from a [\u] escape waits in [hi] for a low one;
    anything else that follows leaves it in the string as it is. *)
Definition flush (acc : str) (hi : option N) : str :=
  match hi with Some h => acc ++ [h] | None => acc end.

(** The string state after a complete [\uXXXX] of value [u]. *)
Definition after_unicode (acc : str) (hi : option N) (u : N) : lex_state :=
  match hi with
  | Some h =>
      if is_low_surrogate u then L_str (acc ++ [join_surrogates h u]) None
      else if is_high_surrogate u then L_str (acc ++ [h]) (Some u)
      else L_str (acc ++ [h; u]) None
  | None =>
      if is_high_surrogate u then L_str acc (Some u)
      else L_str (acc ++ [u]) None
  end.

(** The character a short escape stands for. *)
Definition unescape (c : N) : option N :=
  if c =? 34 then Some 34
  else if c =? 92 then Some 92
  else if c =? 47 then Some 47
  else if c =? 98 then Some 8
  else if c =? 102 then Some 12
  else if c =? 110 then Some 10
  else if c =? 114 then Some 13
  else if c =? 116 then Some 9
  else None.

(** The first character of a token. *)
Definition start_step (c : N) : option (lex_state * list token) :=
  if (c =? 32) || (c =? 9) || (c =? 10) || (c =? 13) then Some (L_start, [])
  else if c =? 123 then Some (L_start, [T_lbrace])
  else if c =? 125 then Some (L_start, [T_rbrace])
  else if c =? 91 then Some (L_start, [T_lbracket])
  else if c =? 93 then Some (L_start, [T_rbracket])
  else if c =? 58 then Some (L_start, [T_colon])
  else if c =? 44 then Some (L_start, [T_comma])
  else if c =? 34 then Some (L_str [] None, [])
  else if c =? 116 then Some (L_word (lit "rue") (T_value (JBool true)), [])
  else if c =? 102 then Some (L_word (lit "alse") (T_value (JBool false)), [])
  else if c =? 110 then Some (L_word (lit "ull") (T_value JNull), [])
  else if c =? 78 then Some (L_word (lit "aN") (T_value (JNumber (lit "NaN"))), [])
  else if c =? 73 then
    Some (L_word (lit "nfinity") (T_value (JNumber (lit "Infinity"))), [])
  else if c =? 45 then Some (L_num N_minus [c], [])
  else if c =? 48 then Some (L_num N_zero [c], [])
  else if is_digit c then Some (L_num N_int [c], [])
  else None.

(** One more character of a number: the phase it leads to, if any. *)
Definition num_step (ph : num_phase) (c : N) : option num_phase :=
  let exponent := (c =? 101) || (c =? 69) in
  match ph with
  | N_minus => if c =? 48 then Some N_zero
               else if is_digit c then Some N_int else None
  | N_zero => if c =? 46 then Some N_dot
              else if exponent then Some N_e else None
  | N_int => if is_digit c then Some N_int
             else if c =? 46 then Some N_dot
             else if exponent then Some N_e else None
  | N_dot => if is_digit c then Some N_frac else None
  | N_frac => if is_digit c then Some N_frac
              else if exponent then Some N_e else None
  | N_e => if (c =? 43) || (c =? 45) then Some N_esign
           else if is_digit c then Some N_exp else None
  | N_esign => if is_digit c then Some N_exp else None
  | N_exp => if is_digit c then Some N_exp else None
  end.

(** The phases in which the characters read so far are a number. *)
Definition num_complete (ph : num_phase) : bool :=
  match ph with
  | N_zero | N_int | N_frac | N_exp => true
  | _ => false
  end.

(** One character: the next state and the tokens that end with it.  A
    control character inside a string, an unknown escape and a character
    no token starts with are errors. *)
Definition lex_step (st : lex_state) (c : N) : option (lex_state * list token) :=
  match st with
  | L_start => start_step c
  | L_str acc hi =>
      if c =? 34 then Some (L_start, [T_value (JString (flush acc hi))])
      else if c =? 92 then Some (L_esc acc hi, [])
      else if c <? 32 then None
      else Some (L_str (flush acc hi ++ [c]) None, [])
  | L_esc acc hi =>
      if c =? 117 then Some (L_uni acc hi 3 0, [])
      else d ← unescape c; Some (L_str (flush acc hi ++ [d]) None, [])
  | L_uni acc hi more v =>
      d ← hexval c;
      match more with
      | S more' => Some (L_uni acc hi more' (v * 16 + d), [])
      | O => Some (after_unicode acc hi (v * 16 + d), [])
      end
  | L_word rest tok =>
      match rest with
      | x :: [] => if c =? x then Some (L_start, [tok]) else None
      | x :: rest' => if c =? x then Some (L_word rest' tok, []) else None
      | [] => None
      end
  | L_num ph lexeme =>
      match num_step ph c with
      | Some ph' => Some (L_num ph' (lexeme ++ [c]), [])
      | None =>
          match ph with
          | N_minus =>
              if c =? 73 then
                Some (L_word (lit "nfinity") (T_value (JNumber (lit "-Infinity"))), [])
              else None
          | _ =>
              if num_complete ph then
                '(st', ts) ← start_step c;
                Some (st', T_value (JNumber lexeme) :: ts)
              else None
          end
      end
  end.

(** The end of the text: only between tokens, or after a number. *)
Definition lex_finish (st : lex_state) : option (list token) :=
  match st with
  | L_start => Some []
  | L_num ph lexeme =>
      if num_complete ph then Some [T_value (JNumber lexeme)] else None
  | _ => None
  end.

Fixpoint lex_run (st : lex_state) (s : str) : option (list token) :=
  match s with
  | [] => lex_finish st
  | c :: s' => '(st', ts) ← lex_step st c; (ts ++.) <$> lex_run st' s'
  end.

(** [d[k] = v] on a [dict]: a key already there keeps its place. *)
Fixpoint dict_set (k : str) (v : json) (d : list (str * json)) : list (str * json) :=
  match d with
  | [] => [(k, v)]
  | (k', v') :: d' =>
      if bool_decide (k' = k) then (k, v) :: d' else (k', v') :: dict_set k v d'
  end.

(** [d.get(k)]. *)
Fixpoint dict_get (k : str) (d : list (str * json)) : option json :=
  match d with
  | [] => None
  | (k', v) :: d' => if bool_decide (k' = k) then Some v else dict_get k d'
  end.

(** The field [k] of a value, when the value is an object that has it. *)
Definition json_field (k : str) (v : json) : option json :=
  match v with
  | JObject members => dict_get k members
  | _ => None
  end.

(** An array or an object that is still open: what it holds so far, and
    for an object the key whose value is being read. *)
Inductive frame :=
| F_array (items : list json)
| F_object (members : list (str * json)) (key : str).

Inductive parse_state :=
| P_value (stack : list frame)           (* a value is expected *)
| P_array_start (stack : list frame)     (* after [: a value or ] *)
| P_object_start (stack : list frame)    (* after {: a key or } *)
| P_key (members : list (str * json)) (stack : list frame)   (* after , in an object *)
| P_colon (members : list (str * json)) (key : str) (stack : list frame)
| P_after_item (items : list json) (stack : list frame)      (* , or ] *)
| P_after_member (members : list (str * json)) (stack : list frame)  (* , or } *)
| P_done (v : json).                     (* the value is complete *)

(** A value is complete: it is the result, or it goes into the array or
    object that is open around it. *)
Definition complete (v : json) (stack : list frame) : parse_state :=
  match stack with
  | [] => P_done v
  | F_array items :: stack' => P_after_item (items ++ [v]) stack'
  | F_object members key :: stack' => P_after_member (dict_set key v members) stack'
  end.

Definition value_step (stack : list frame) (t : token) : option parse_state :=
  match t with
  | T_value v => Some (complete v stack)
  | T_lbracket => Some (P_array_start stack)
  | T_lbrace => Some (P_object_start stack)
  | _ => None
  end.

Definition parse_step (st : parse_state) (t : token) : option parse_state :=
  match st with
  | P_value stack => value_step stack t
  | P_array_start stack =>
      match t with
      | T_rbracket => Some (complete (JArray []) stack)
      | _ => value_step (F_array [] :: stack) t
      end
  | P_object_start stack =>
      match t with
      | T_rbrace => Some (complete (JObject []) stack)
      | T_value (JString k) => Some (P_colon [] k stack)
      | _ => None
      end
  | P_key members stack =>
      match t with
      | T_value (JString k) => Some (P_colon members k stack)
      | _ => None
      end
  | P_colon members k stack =>
      match t with
      | T_colon => Some (P_value (F_object members k :: stack))
      | _ => None
      end
  | P_after_item items stack =>
      match t with
      | T_comma => Some (P_value (F_array items :: stack))
      | T_rbracket => Some (complete (JArray items) stack)
      | _ => None
      end
  | P_after_member members stack =>
      match t with
      | T_comma => Some (P_key members stack)
      | T_rbrace => Some (complete (JObject members) stack)
      | _ => None
      end
  | P_done _ => None
  end.

Fixpoint parse_run (st : parse_state) (ts : list token) : option json :=
  match ts with
  | [] => match st with P_done v => Some v | _ => None end
  | t :: ts' => st' ← parse_step st t; parse_run st' ts'
  end.

(** The value a text denotes, [None] when it is not a JSON text. *)
Definition json_decode (s : str) : option json :=
  ts ← lex_run L_start s; parse_run (P_value []) ts.

(** A number without fraction and exponent is converted with [int], which
    refuses a decimal of more digits than [max_digits]; CPython checks
    the limit only above 640 digits, and [0] is no limit.  A number with
    a fraction or an exponent is converted with [float], which refuses
    nothing. *)
Definition is_integer (lexeme : str) : bool :=
  forallb (fun c => is_digit c || (c =? 45)) lexeme.

Definition int_too_long (max_digits : N) (t : token) : bool :=
  match t with
  | T_value (JNumber lexeme) =>
      let digits := N.of_nat (length (List.filter is_digit lexeme)) in
      is_integer lexeme && (640 <? digits)
      && (0 <? max_digits) && (max_digits <? digits)
  | _ => false
  end.

(** The deepest nesting the tokens reach from [depth]: the decoder enters
    an array or an object at its opening bracket and leaves it at the
    closing one. *)
Fixpoint nesting (depth : N) (ts : list token) : N :=
  match ts with
  | [] => depth
  | t :: ts' =>
      match t with
      | T_lbrace | T_lbracket => nesting (depth + 1) ts'
      | T_rbrace | T_rbracket => N.max depth (nesting (depth - 1) ts')
      | _ => nesting depth ts'
      end
  end.

(** What [json.loads(s)] returns, [None] when it raises: on a text that
    is not JSON ([JSONDecodeError]), on an integer of too many digits
    ([ValueError]) and on a nesting deeper than the interpreter allows
    ([RecursionError]). *)
Definition json_loads_value (w : World) (s : str) : option json :=
  ts ← lex_run L_start s;
  if existsb (int_too_long (int_max_str_digits w)) ts
     || (recursion_limit w <? nesting 0 ts)
  then None
  else parse_run (P_value []) ts.

(** [json.loads(s)].  Which of the three exceptions it raises, and with
    which message, is not modelled: the script catches them all alike and
    never reads them. *)
Definition json_loads (w : World) (s : str) : M json :=
  match json_loads_value w s with
  | Some v => mret v
  | None => raise (Exception (lit "JSONDecodeError"))
  end.

(** ** Structured extraction: [extract_json_from_text] *)

Definition MODEL_NAME : str := lit "gemini-1.5-flash".

(** The instruction prompt, one line of the source per line. *)
Definition PROMPT : str :=
  lit "You are an AI that extracts structured data from documents. " ++
  lit "Always output a JSON object strictly in this format:" ++ NL ++ NL ++
  lit "{" ++ NL ++
  lit "  " ++ DQ ++ lit "type" ++ DQ ++ lit ": " ++ DQ ++ lit "object" ++ DQ ++ lit "," ++ NL ++
  lit "  " ++ DQ ++ lit "properties" ++ DQ ++ lit ": {" ++ NL ++
  lit "    " ++ DQ ++ lit "document_type" ++ DQ ++ lit ": " ++ DQ ++ lit "<detected type like Aadhaar Card, PAN Card, Passport, Driving License, Marksheet, Invoice, Contract, Text>" ++ DQ ++ lit "," ++ NL ++
  lit "    " ++ DQ ++ lit "extracted_data" ++ DQ ++ lit ": { ...fields depending on document type OR fallback message only... }" ++ NL ++
  lit "  }," ++ NL ++
  lit "  " ++ DQ ++ lit "compliance_status" ++ DQ ++ lit ": " ++ DQ ++ lit "<status based on completeness and compliance rules>" ++ DQ ++ lit "," ++ NL ++
  lit "  " ++ DQ ++ lit "name" ++ DQ ++ lit ": " ++ DQ ++ lit "response" ++ DQ ++ NL ++
  lit "}" ++ NL ++ NL ++
  lit "### Rules by Document Type ###" ++ NL ++
  lit "- Aadhaar Card -> Extract: name, dob, gender, aadhaar_number, Address." ++ NL ++
  lit "- PAN Card -> Extract: name, father's name, dob, Pan number, signature." ++ NL ++
  lit "- Passport -> Extract: name, passport_number, dob, nationality, issue_date, expiry_date." ++ NL ++
  lit "- Driving License -> Extract: name, license_number, dob, issue_date, validity." ++ NL ++
  lit "- Marksheet/Examination Certificate -> Extract: Roll No, exam_type, certificate_number, Candidate Name , Mother Name, Father Name, DOB, School/College Name, Exam Year, Subjects [{Subject, Max Marks, Total Marks, Grade}], Result, Date of Issue, Place, Verification Website." ++ NL ++
  lit "- Invoice -> Extract: invoice_number, date, seller_name, buyer_name, items, total_amount, tax_amount." ++ NL ++
  lit "- Contract -> Extract: contract_id, parties_involved, start_date, end_date, key_terms." ++ NL ++
  lit "- Voter ID -> Extract: name, father_name, dob, gender, voter_id_number, address." ++ NL ++
  lit "- Birth Certificate -> Extract: child_name, father_name, mother_name, dob, place_of_birth, registration_number." ++ NL ++
  lit "- Property Registration -> Extract: owner_name, property_address, registration_number, date_of_registration, registrar_office." ++ NL ++
  lit "- Tax Return: Extract: taxpayer_name, pan_number, assessment_year, income, tax_paid, refund_status." ++ NL ++
  lit "- Income Certificate -> Extract: Certificate_number, Applicant_name, Father's_name, Address, Annual_income, Issue_date, Validity, Issuing_authority." ++ NL ++
  lit "### Rules for compliance_status ###" ++ NL ++
  lit "- If all fields are present -> 'compliant'." ++ NL ++
  lit "- If document fields are fully extracted and valid -> 'Data extracted successfully for regulatory review.'" ++ NL ++
  lit "- If some fields are missing/unclear -> 'Partial data extracted " ++ EM_DASH ++ lit " further verification required.'" ++ NL ++
  lit "- If document type is unrecognized -> 'Document type not identified " ++ EM_DASH ++ lit " manual review required.'" ++ NL ++
  lit "- If sensitive data mismatch detected -> 'Data format issue " ++ EM_DASH ++ lit " needs correction.'" ++ NL ++
  lit "- If type not identified but text present (non-document) ->" ++ NL ++
  lit "  document_type='text'," ++ NL ++
  lit "  extracted_data={" ++ DQ ++ lit "message" ++ DQ ++ lit ": " ++ DQ ++ lit "It appears that the input was minimal or unrelated to a document. Please provide a proper document." ++ DQ ++ lit "}," ++ NL ++
  lit "  compliance_status='N/A'." ++ NL ++
  lit "### Important ###" ++ NL ++
  lit "- Detect document type first." ++ NL ++
  lit "- Never invent or hallucinate fields." ++ NL ++
  lit "- If input is non-document text, only return the fallback message under extracted_data." ++ NL ++
  lit "- Output JSON only. Never include explanations outside JSON.".

(** The [dict] the function prints when the remote call raised [e]. *)
Definition api_error (e : exn) : json :=
  JObject
    [ (lit "type", JString (lit "object"));
      (lit "properties",
       JObject
         [ (lit "document_type", JString (lit "error"));
           (lit "extracted_data",
            JObject [ (lit "error", JString (lit "API Error: " ++ exn_str e)) ]) ]);
      (lit "compliance_status", JString (lit "Error occurred during processing"));
      (lit "name", JString (lit "response")) ].

(** [model.generate_content([prompt, text])] and the [text] of the
    response. *)
Definition call_generate_content (w : World) (model prompt text : str) : M str :=
  answer (generate_content model prompt text) (gemini w model prompt text).

Definition extract_json_from_text (w : World) (extracted_text : str) : M str :=
  call (genai_GenerativeModel MODEL_NAME);;
  let model := MODEL_NAME in
  let prompt := PROMPT in
  try_except
    (response_text ← call_generate_content w model prompt extracted_text;
     mret (strip response_text))
    (fun e => mret (json_dumps (api_error e))).

(** ** The page *)

(** The display of the model's answer: [st.json] of the parsed text, and
    [st.text] of the text itself when anything in that raised (the bare
    [except:] of the source; nothing under it calls [st.stop()]). *)
Definition show_response (w : World) (json_result : str) : M unit :=
  try_except
    (v ← json_loads w json_result; call (st_json v))
    (fun _ => call (st_text json_result)).

(** The body of [if st.button(...)]: what a press of the button runs. *)
Definition process_button (w : World) (text_input : str)
    (uploaded_file : option UploadedFile) : M unit :=
  let extracted_text : str := [] in
  extracted_text ←
    match uploaded_file with
    | Some f =>
        failing (os_makedirs (lit "uploads")) (fs_makedirs w (lit "uploads"));;
        let file_path := os_path_join (lit "uploads") (uf_name f) in
        failing (file_write file_path (uf_buffer f)) (fs_write w file_path);;
        if bool_decide (uf_type f = lit "application/pdf") then
          extract_text_from_pdf w file_path
        else if bool_decide (uf_type f ∈ [lit "image/png"; lit "image/jpeg"]) then
          extract_text_from_pdf w file_path
        else mret extracted_text
    | None =>
        if truthy (strip text_input) then mret (strip text_input)
        else mret extracted_text
    end;
  if truthy extracted_text then
    call (st_subheader (lit "Extracted Text (Preview)"));;
    call (st_text_area (lit "Extracted Text") extracted_text);;
    call (st_spinner (lit "Processing with Gemini API..."));;
    json_result ← extract_json_from_text w extracted_text;
    call (st_subheader (lit "AI Response:"));;
    show_response w json_result
  else
    call (st_warning (lit "Could not extract any text from this file.")).

(** The lines that run when the script starts.  [os.getenv] gives [None]
    for a variable that is not set; [None] and the empty string are both
    false, and [default [] API_KEY] is the key where there is one. *)
Definition startup (w : World) : M unit :=
  let API_KEY := environ w !! lit "GEMINI_API_KEY" in
  if negb (truthy (default [] API_KEY)) then
    call (st_error (lit "Gemini API key not found. Please set GEMINI_API_KEY environment variable in .env file."));;
    ([st_stop], Stopped)
  else
    call (genai_configure (default [] API_KEY)).

(** One run of the script: the text in the text box, the uploaded file
    and whether the button was pressed are what the user did. *)
Definition script (w : World) (text_input : str)
    (uploaded_file : option UploadedFile) (pressed : bool) : M unit :=
  startup w;;
  call (st_set_page_config (lit "Government Document Processor") (lit "wide"));;
  call (st_title ([128196] ++ lit " Government Document Processor (Cloud Version)"));;
  call (st_info ([9888; 65039] ++ lit " **Cloud Deployment Notice**: OCR processing for scanned documents is limited. For best results, use documents with digital text or provide text input directly."));;
  call (st_text_area_input (lit "Your Input (Text)")
          (lit "Provide text details or describe your challenge..."));;
  call (st_file_uploader (lit "Upload File")
          [lit "pdf"; lit "png"; lit "jpg"; lit "jpeg"]);;
  call (st_button ([128269] ++ lit " Process with Gemini API"));;
  (if pressed then process_button w text_input uploaded_file else mret tt);;
  call (st_sidebar_markdown (lit "## " ++ [128203] ++ lit " Supported Document Types"));;
  call (st_sidebar_markdown
          (NL ++ lit "- Aadhaar Card" ++ NL ++ lit "- PAN Card  " ++ NL
           ++ lit "- Passport" ++ NL ++ lit "- Driving License" ++ NL
           ++ lit "- Marksheets" ++ NL ++ lit "- Invoices" ++ NL
           ++ lit "- Contracts" ++ NL ++ lit "- Voter ID" ++ NL
           ++ lit "- Birth Certificate" ++ NL ++ lit "- Property Registration" ++ NL
           ++ lit "- Tax Returns" ++ NL ++ lit "- Income Certificate" ++ NL)).

(** ** What the prompt enumerates

    The prompt is text; these functions read its rule lists off it.  A
    section is the lines between a heading line (one that starts with
    [###]) and the next one; a rule is a line of a section that starts
    with a dash. *)

(** [s.split(sep)] for a separator of one character. *)
Fixpoint split_on (sep : N) (s : str) : list str :=
  match s with
  | [] => [[]]
  | c :: s' =>
      if c =? sep then [] :: split_on sep s'
      else match split_on sep s' with
           | l :: ls => (c :: l) :: ls
           | [] => [[c]]
           end
  end.

(** [s.partition(sep)]: the text before the first [sep] and the text
    after it, when [sep] occurs. *)
Fixpoint partition (sep s : str) : option (str * str) :=
  if startswith s sep then Some ([], drop (length sep) s)
  else match s with
       | [] => None
       | c :: s' => '(before, after) ← partition sep s'; Some (c :: before, after)
       end.

(** The lines up to the next heading. *)
Fixpoint until_heading (ls : list str) : list str :=
  match ls with
  | [] => []
  | l :: ls' => if startswith l (lit "###") then [] else l :: until_heading ls'
  end.

(** The lines that follow the line [heading], up to the next heading. *)
Fixpoint section_lines (heading : str) (ls : list str) : list str :=
  match ls with
  | [] => []
  | l :: ls' =>
      if bool_decide (l = heading)
      then until_heading ls'
      else section_lines heading ls'
  end.

Definition prompt_section (heading prompt : str) : list str :=
  section_lines heading (split_on 10 prompt).

Definition is_rule (line : str) : bool := startswith line (lit "- ").

(** A rule of the document-type section: the name of the type, and the
    fields listed after [Extract:].  The name is followed by an arrow or
    by a colon. *)
Definition document_rule (line : str) : option (str * str) :=
  '(before, fields) ← partition (lit "Extract: ") (drop 2 line);
  let name :=
    if endswith before (lit " -> ") then take (length before - 4) before
    else if endswith before (lit ": ") then take (length before - 2) before
    else before in
  Some (name, fields).

Definition document_rules (prompt : str) : list (option (str * str)) :=
  document_rule <$>
    filter (fun l => is_rule l = true)
      (prompt_section (lit "### Rules by Document Type ###") prompt).

(** The text between the first and the last single quote of a line. *)
Definition quoted (line : str) : option str :=
  '(_, after) ← partition [39] line;
  '(_, inner) ← partition [39] (reverse after);
  Some (reverse inner).

Definition compliance_rules (prompt : str) : list str :=
  filter (fun l => is_rule l = true)
    (prompt_section (lit "### Rules for compliance_status ###") prompt).

(** The outcome a compliance rule gives on its own line: the quoted text
    after the arrow. *)
Definition rule_outcome (line : str) : option str :=
  '(_, after) ← partition (lit " -> ") line; quoted after.

(** A line of the form [key='value'], as the lines that continue a rule
    are written. *)
Definition assignment (line : str) : option (str * str) :=
  '(key, value) ← partition (lit "=") (lstrip line);
  v ← quoted value; Some (key, v).

(** The assignments on the lines of the compliance section that continue
    a rule. *)
Definition compliance_assignments (prompt : str) : list (str * str) :=
  omap assignment
    (filter (fun l => is_rule l = false)
       (prompt_section (lit "### Rules for compliance_status ###") prompt)).

(** ** Vocabulary of the statements *)

(** A page with a digital text layer: [extract_text] returns a text that
    is not empty. *)
Definition has_text_layer (page : Page) (t : str) : Prop :=
  extract_text page = inr (Some t) /\ truthy t = true.

(** A page without one: [extract_text] returns [None] or the empty
    text. *)
Definition no_text_layer (page : Page) : Prop :=
  extract_text page = inr None \/ extract_text page = inr (Some []).

(** The exception of the first page whose [extract_text] raises. *)
Fixpoint first_raise (pages : list Page) : option exn :=
  match pages with
  | [] => None
  | page :: rest =>
      match extract_text page with inl e => Some e | inr _ => first_raise rest end
  end.

(** The calls of [extract_text] on [n] pages, from the page of index [i]. *)
Definition page_calls (i n : nat) : list event := page_extract_text <$> seq i n.

(** The calls of an extraction: a file is opened, a page is read. *)
Definition extraction_event (e : event) : Prop :=
  match e with
  | pdfplumber_open _ | page_extract_text _ | Image_open _ => True
  | _ => False
  end.

(** A call of the hosted model. *)
Definition remote_call (e : event) : Prop :=
  match e with generate_content _ _ _ => True | _ => False end.

(** A Unicode scalar value: a code point that is no surrogate. *)
Definition scalar_value (c : N) : Prop :=
  c < 1114112 /\ ~ (55296 <= c <= 57343).

(** The MIME types for which the button extracts text. *)
Definition accepted_type (t : str) : Prop :=
  t ∈ [lit "application/pdf"; lit "image/png"; lit "image/jpeg"].

(** The text [extract_json_from_text] returns for [extracted_text]. *)
Definition model_reply (w : World) (extracted_text : str) : str :=
  match gemini w MODEL_NAME PROMPT extracted_text with
  | inr response_text => strip response_text
  | inl e => json_dumps (api_error e)
  end.

(** The calls the button makes once the text [x] is extracted. *)
Definition response_events (w : World) (x : str) : list event :=
  if truthy x then
    [ st_subheader (lit "Extracted Text (Preview)");
      st_text_area (lit "Extracted Text") x;
      st_spinner (lit "Processing with Gemini API...");
      genai_GenerativeModel MODEL_NAME;
      generate_content MODEL_NAME PROMPT x;
      st_subheader (lit "AI Response:");
      match json_loads_value w (model_reply w x) with
      | Some v => st_json v
      | None => st_text (model_reply w x)
      end ]
  else [ st_warning (lit "Could not extract any text from this file.") ].

(** The calls that draw the page before the button's work, and the two
    that fill the sidebar after it. *)
Definition page_head : list event :=
  [ st_set_page_config (lit "Government Document Processor") (lit "wide");
    st_title ([128196] ++ lit " Government Document Processor (Cloud Version)");
    st_info ([9888; 65039] ++ lit " **Cloud Deployment Notice**: OCR processing for scanned documents is limited. For best results, use documents with digital text or provide text input directly.");
    st_text_area_input (lit "Your Input (Text)")
      (lit "Provide text details or describe your challenge...");
    st_file_uploader (lit "Upload File")
      [lit "pdf"; lit "png"; lit "jpg"; lit "jpeg"];
    st_button ([128269] ++ lit " Process with Gemini API") ].

Definition page_foot : list event :=
  [ st_sidebar_markdown (lit "## " ++ [128203] ++ lit " Supported Document Types");
    st_sidebar_markdown
      (NL ++ lit "- Aadhaar Card" ++ NL ++ lit "- PAN Card  " ++ NL
       ++ lit "- Passport" ++ NL ++ lit "- Driving License" ++ NL
       ++ lit "- Marksheets" ++ NL ++ lit "- Invoices" ++ NL
       ++ lit "- Contracts" ++ NL ++ lit "- Voter ID" ++ NL
       ++ lit "- Birth Certificate" ++ NL ++ lit "- Property Registration" ++ NL
       ++ lit "- Tax Returns" ++ NL ++ lit "- Income Certificate" ++ NL) ].

(** The message [startup] shows without an API key. *)
Definition API_KEY_MISSING : str :=
  lit "Gemini API key not found. Please set GEMINI_API_KEY environment variable in .env file.".

(** The characters a JSON value can start with, and the white space
    that can stand before it. *)
Definition value_start (c : N) : bool :=
  (c =? 32) || (c =? 9) || (c =? 10) || (c =? 13)
  || (c =? 123) || (c =? 91) || (c =? 34)
  || (c =? 116) || (c =? 102) || (c =? 110) || (c =? 78) || (c =? 73)
  || (c =? 45) || is_digit c.

(** The lexer over a piece of a text: the state it ends in and the
    tokens that ended inside the piece. *)
Fixpoint lex_chars (st : lex_state) (s : str) : option (lex_state * list token) :=
  match s with
  | [] => Some (st, [])
  | c :: s' =>
      '(st', ts) ← lex_step st c;
      '(st'', ts') ← lex_chars st' s';
      Some (st'', ts ++ ts')
  end.

(** The text [json.dumps] prints for [api_error e], before and after the
    characters of the message and the quote that closes it. *)
Definition api_error_head : str :=
  lit "{" ++ DQ ++ lit "type" ++ DQ ++ lit ": " ++ DQ ++ lit "object" ++ DQ
  ++ lit ", " ++ DQ ++ lit "properties" ++ DQ ++ lit ": {"
  ++ DQ ++ lit "document_type" ++ DQ ++ lit ": " ++ DQ ++ lit "error" ++ DQ
  ++ lit ", " ++ DQ ++ lit "extracted_data" ++ DQ ++ lit ": {"
  ++ DQ ++ lit "error" ++ DQ ++ lit ": " ++ DQ ++ lit "API Error: ".

Definition api_error_tail : str :=
  lit "}}, " ++ DQ ++ lit "compliance_status" ++ DQ ++ lit ": "
  ++ DQ ++ lit "Error occurred during processing" ++ DQ
  ++ lit ", " ++ DQ ++ lit "name" ++ DQ ++ lit ": " ++ DQ ++ lit "response" ++ DQ
  ++ lit "}".

(** The tokens of the two pieces. *)
Definition api_error_head_tokens : list token :=
  [ T_lbrace; T_value (JString (lit "type")); T_colon;
    T_value (JString (lit "object")); T_comma;
    T_value (JString (lit "properties")); T_colon; T_lbrace;
    T_value (JString (lit "document_type")); T_colon;
    T_value (JString (lit "error")); T_comma;
    T_value (JString (lit "extracted_data")); T_colon; T_lbrace;
    T_value (JString (lit "error")); T_colon ].

Definition api_error_tail_tokens : list token :=
  [ T_rbrace; T_rbrace; T_comma;
    T_value (JString (lit "compliance_status")); T_colon;
    T_value (JString (lit "Error occurred during processing")); T_comma;
    T_value (JString (lit "name")); T_colon;
    T_value (JString (lit "response")); T_rbrace ].

(** The value the text printed for [api_error e] denotes, where [m] is
    the message as it is read back. *)
Definition api_error_read (m : str) : json :=
  JObject
    [ (lit "type", JString (lit "object"));
      (lit "properties",
       JObject
         [ (lit "document_type", JString (lit "error"));
           (lit "extracted_data", JObject [ (lit "error", JString m) ]) ]);
      (lit "compliance_status", JString (lit "Error occurred during processing"));
      (lit "name", JString (lit "response")) ].

(** ** Example worlds *)

Definition text_page (t : str) : Page := {| extract_text := inr (Some t) |}.
Definition blank_page : Page := {| extract_text := inr None |}.
Definition broken_page (e : exn) : Page := {| extract_text := inl e |}.

(** A world for examples: the API key if there is one, the PDFs that
    open with their pages, the paths PIL opens as images, and what the
    hosted model answers.  Every directory can be made and every file
    written; the limits are those of an interpreter as it is
    installed. *)
Definition example_world (key : option str) (pdfs : list (str * list Page))
    (images : list str) (reply : exn + str) : World :=
  {| environ := from_option (fun k => {[ lit "GEMINI_API_KEY" := k ]}) ∅ key;
     fs_makedirs := fun _ => None;
     fs_write := fun _ => None;
     pdf_pages := fun p =>
       match (list_to_map pdfs : gmap str (list Page)) !! p with
       | Some pages => inr pages
       | None => inl (Exception (lit "No /Root object! - Is this really a PDF?"))
       end;
     image_error := fun p =>
       if bool_decide (p ∈ images) then None
       else Some (Exception (lit "cannot identify image file"));
     gemini := fun _ _ _ => reply;
     int_max_str_digits := 4300;
     recursion_limit := 900 |}.

(** A PDF whose page texts start and end with a blank. *)
Definition padded_texts : list str := [lit " Title"; lit "Body "].

Definition padded_world : World :=
  example_world (Some (lit "k"))
    [(lit "notice.pdf", text_page <$> padded_texts)] [] (inr (lit "{}")).

(** A scanned PDF of two pages, a PDF whose second page cannot be read,
    and one image that opens. *)
Definition scans_world : World :=
  example_world (Some (lit "k"))
    [(lit "scan.pdf", [blank_page; text_page []]);
     (lit "torn.pdf",
      [text_page (lit "page one"); broken_page (Exception (lit "bad xref "))])]
    [lit "photo.png"] (inr (lit "{}")).

(** The hosted model is down. *)
Definition outage : exn :=
  Exception (lit "503 The model is overloaded. " ++ DQ ++ lit "UNAVAILABLE" ++ DQ
             ++ [10; 128512; 55357]).

Definition outage_world : World :=
  example_world (Some (lit "k")) [] [] (inl outage).

(** The hosted model refuses the request; the message has a quote, a
    newline and characters outside ASCII. *)
Definition quota_error : exn :=
  Exception (lit "429 quota " ++ DQ ++ lit "free_tier" ++ DQ
             ++ [10; 233; 8212; 128512]).

(** The hosted model wraps its answer in a code fence. *)
Definition fenced_reply : str :=
  lit "```json" ++ NL ++ lit "{}" ++ NL ++ lit "```".

Definition fenced_world : World :=
  example_world (Some (lit "k")) [] [] (inr (fenced_reply ++ NL)).

(** An upload directory with one PDF and one image. *)
Definition upload_world : World :=
  example_world (Some (lit "k"))
    [(lit "uploads/card.pdf", [text_page (lit "PAN ABCDE1234F")])]
    [lit "uploads/card.png"] (inr (lit "{}")).

Definition card_pdf : UploadedFile :=
  {| uf_name := lit "card.pdf"; uf_type := lit "application/pdf";
     uf_buffer := [37; 80; 68; 70] |}.

(** A PNG image uploaded under a name that ends in [.PDF]. *)
Definition png_named_pdf : UploadedFile :=
  {| uf_name := lit "photo.PDF"; uf_type := lit "image/png";
     uf_buffer := [137; 80; 78; 71] |}.

(** The API key is set to the empty string. *)
Definition empty_key_world : World :=
  example_world (Some []) [] [] (inr (lit "{}")).

Definition no_key_world : World :=
  example_world None [] [] (inr (lit "{}")).

(** ** Memory helper: [clear_memory]

    The helper frees memory: it runs the garbage collector, then tries to
    import torch and to empty its CUDA cache, and passes over whatever
    that raises.  [gc.collect()] itself is taken not to raise.  The
    script defines the helper and never calls it, so its calls are a type
    of their own. *)

Inductive memory_call :=
| gc_collect
| import_torch
| torch_cuda_empty_cache.

(** What importing torch and emptying the cache do: [Some e] when the
    step raises. *)
Record Torch := {
  torch_import : option exn;
  torch_empty_cache : option exn
}.

Definition memory_step (c : memory_call) (r : option exn)
    : list memory_call * outcome unit :=
  ([c], match r with Some e => Raise e | None => Return tt end).

(** Sequencing and the bare [except:], on these calls. *)
Definition memory_then (m k : list memory_call * outcome unit)
    : list memory_call * outcome unit :=
  match m with
  | (t, Return _) => (t ++ fst k, snd k)
  | _ => m
  end.

Definition memory_try (m handler : list memory_call * outcome unit)
    : list memory_call * outcome unit :=
  match m with
  | (t, Raise _) => (t ++ fst handler, snd handler)
  | _ => m
  end.

Definition clear_memory (torch : Torch) : list memory_call * outcome unit :=
  memory_then (memory_step gc_collect None)
    (memory_try
       (memory_then (memory_step import_torch (torch_import torch))
          (memory_step torch_cuda_empty_cache (torch_empty_cache torch)))
       ([], Return tt)).


(** ** More vocabulary *)

(** What one page adds to the text, without the newline: its text, or
    the scanned-page line when it has none. *)
Definition page_line (page : Page) : str :=
  match extract_text page with
  | inr (Some t) => if truthy t then t else SCANNED_PAGE
  | _ => SCANNED_PAGE
  end.

(** [generate_content] calls, as a test and as a count. *)
Definition is_remote_call (e : event) : bool :=
  match e with generate_content _ _ _ => true | _ => false end.

Definition remote_calls (t : list event) : nat :=
  length (List.filter is_remote_call t).

(** A printable ASCII character. *)
Definition printable (c : N) : Prop := 32 <= c <= 126.

(** Arrays nested [n] deep around nothing: [n] opening brackets and [n]
    closing ones. *)
Definition nested_arrays (n : nat) : str := replicate n 91 ++ replicate n 93.

(** ** More example worlds *)

(** A PDF of three pages, the second one scanned; a PDF of no page; an
    image that opens. *)
Definition mixed_pages : list Page :=
  [text_page (lit "Name: Asha"); blank_page; text_page (lit "Signed.")].

Definition mixed_world : World :=
  example_world (Some (lit "k"))
    [(lit "form.pdf", mixed_pages); (lit "uploads/empty.pdf", [])]
    [lit "uploads/photo.png"] (inr (lit "{}")).

Definition gif_upload : UploadedFile :=
  {| uf_name := lit "chart.gif"; uf_type := lit "image/gif"; uf_buffer := [71; 73; 70] |}.
Definition empty_pdf : UploadedFile :=
  {| uf_name := lit "empty.pdf"; uf_type := lit "application/pdf"; uf_buffer := [37; 80; 68; 70] |}.
Definition broken_pdf : UploadedFile :=
  {| uf_name := lit "broken.pdf"; uf_type := lit "application/pdf"; uf_buffer := [0] |}.
Definition absolute_upload : UploadedFile :=
  {| uf_name := lit "/etc/motd"; uf_type := lit "image/png"; uf_buffer := [1] |}.
(** No file can be written. *)
Definition disk_full : exn := Exception (lit "[Errno 28] No space left on device").
Definition full_disk_world : World :=
  {| environ := {[ lit "GEMINI_API_KEY" := lit "k" ]};
     fs_makedirs := fun _ => None;
     fs_write := fun _ => Some disk_full;
     pdf_pages := fun _ => inr [];
     image_error := fun _ => None;
     gemini := fun _ _ _ => inr (lit "{}");
     int_max_str_digits := 4300;
     recursion_limit := 900 |}.

(** The directory [uploads] cannot be made. *)
Definition read_only : exn :=
  Exception (lit "[Errno 30] Read-only file system: 'uploads'").
Definition read_only_world : World :=
  {| environ := {[ lit "GEMINI_API_KEY" := lit "k" ]};
     fs_makedirs := fun _ => Some read_only;
     fs_write := fun _ => None;
     pdf_pages := fun _ => inr [];
     image_error := fun _ => None;
     gemini := fun _ _ _ => inr (lit "{}");
     int_max_str_digits := 4300;
     recursion_limit := 900 |}.

(** The hosted model answers with arrays nested deeper than an
    interpreter near its recursion limit can read. *)
Definition nested_reply : str := lit "[[[1]]]".
Definition shallow_world : World :=
  {| environ := {[ lit "GEMINI_API_KEY" := lit "k" ]};
     fs_makedirs := fun _ => None;
     fs_write := fun _ => None;
     pdf_pages := fun _ => inr [];
     image_error := fun _ => None;
     gemini := fun _ _ _ => inr nested_reply;
     int_max_str_digits := 4300;
     recursion_limit := 2 |}.

(** * Properties *)

(** ** Strings and paths *)

Section strings.
Implicit Types (s t : str) (c : N).

Lemma lstrip_head s c :
  head s = Some c -> isspace c = false -> lstrip s = s.
Proof.
  destruct s as [|a s']; intros Hh Hc; simplify_eq/=.
  by rewrite Hc.
Qed.

Lemma rstrip_last s c :
  last s = Some c -> isspace c = false -> rstrip s = s.
Proof.
  intros Hl Hc. unfold rstrip.
  rewrite (lstrip_head (reverse s) c); [apply reverse_involutive| |done].
  by rewrite head_reverse.
Qed.

(** A text that neither starts nor ends with white space is its own
    [strip]. *)
Lemma strip_trimmed s a b :
  head s = Some a -> last s = Some b ->
  isspace a = false -> isspace b = false -> strip s = s.
Proof.
  intros Ha Hb Hsa Hsb. unfold strip.
  rewrite (lstrip_head s a) by done. by apply (rstrip_last s b).
Qed.

Lemma rstrip_snoc_space s c : isspace c = true -> rstrip (s ++ [c]) = rstrip s.
Proof.
  intros Hc. unfold rstrip. rewrite reverse_snoc. simpl. by rewrite Hc.
Qed.

Lemma lstrip_snoc s c :
  lstrip (s ++ [c]) = lstrip s ++ [c] \/ (lstrip s = [] /\ lstrip (s ++ [c]) = lstrip [c]).
Proof.
  induction s as [|a s IH]; simpl.
  - right. done.
  - destruct (isspace a); [apply IH | by left].
Qed.

(** White space at the end does not change what [strip] returns. *)
Lemma strip_snoc_space s c : isspace c = true -> strip (s ++ [c]) = strip s.
Proof.
  intros Hc. unfold strip.
  destruct (lstrip_snoc s c) as [-> | [E ->]].
  - by apply rstrip_snoc_space.
  - rewrite E. simpl. by rewrite Hc.
Qed.

Lemma strip_nil : strip [] = [].
Proof. reflexivity. Qed.

(** Every text followed by a newline and concatenated: the joined text
    and one more newline. *)
Lemma concat_newline_join (texts : list str) :
  texts <> [] ->
  concat ((fun t => t ++ NL) <$> texts) = join NL texts ++ NL.
Proof.
  induction texts as [|t [|t' ts] IH]; intros Hne; [done| |].
  - simpl. by rewrite app_nil_r.
  - change (concat ((fun t => t ++ NL) <$> t :: t' :: ts))
      with ((t ++ NL) ++ concat ((fun t => t ++ NL) <$> t' :: ts)).
    rewrite IH by done.
    change (join NL (t :: t' :: ts)) with (t ++ NL ++ join NL (t' :: ts)).
    by rewrite <- !app_assoc.
Qed.

Lemma strip_concat_newline (texts : list str) :
  strip (concat ((fun t => t ++ NL) <$> texts)) = strip (join NL texts).
Proof.
  destruct texts as [|t ts]; [done|].
  rewrite concat_newline_join by done.
  by apply strip_snoc_space.
Qed.

Lemma endswith_suffix s t : endswith s t = true <-> t `suffix_of` s.
Proof.
  unfold endswith. rewrite bool_decide_eq_true. split.
  - intros <-. apply suffix_drop.
  - intros [k ->]. rewrite length_app.
    replace (length k + length t - length t)%nat with (length k) by lia.
    apply drop_app_length.
Qed.

Lemma lower_app s t : lower (s ++ t) = lower s ++ lower t.
Proof. apply fmap_app. Qed.

Lemma lower_char_dot c : lower_char c = 46 <-> c = 46.
Proof.
  unfold lower_char. destruct ((65 <=? c) && (c <=? 90)) eqn:H; [|done].
  apply andb_true_iff in H as [H1%N.leb_le H2%N.leb_le]. lia.
Qed.

Lemma lower_char_letter c l :
  97 <= l <= 122 -> lower_char c = l <-> c = l \/ c = l - 32.
Proof.
  intros Hl. unfold lower_char. destruct ((65 <=? c) && (c <=? 90)) eqn:H.
  - apply andb_true_iff in H as [H1%N.leb_le H2%N.leb_le]. lia.
  - apply andb_false_iff in H as [H%N.leb_gt | H%N.leb_gt]; lia.
Qed.

(** X3.  The test of the source, spelled out: the lower-cased path ends
    in [.pdf] exactly when the path ends in a dot and the letters p, d,
    f, each in either case. *)
Lemma endswith_lower_pdf file_path :
  endswith (lower file_path) (lit ".pdf") = true <->
  exists stem p d f,
    file_path = stem ++ [46; p; d; f] /\
    (p = 112 \/ p = 80) /\ (d = 100 \/ d = 68) /\ (f = 102 \/ f = 70).
Proof.
  rewrite endswith_suffix. split.
  - intros [k Hk]. unfold lower in Hk.
    apply fmap_app_inv in Hk as (stem & ext & Hstem & Hext & ->).
    destruct ext as [|c0 [|c1 [|c2 [|c3 [|]]]]]; try discriminate Hext.
    vm_compute lit in Hext. cbn [fmap list_fmap] in Hext.
    injection Hext as H0 H1 H2 H3.
    symmetry in H0, H1, H2, H3.
    apply lower_char_dot in H0 as ->.
    apply (lower_char_letter _ 112) in H1; [|lia].
    apply (lower_char_letter _ 100) in H2; [|lia].
    apply (lower_char_letter _ 102) in H3; [|lia].
    exists stem, c1, c2, c3. done.
  - intros (stem & p & d & f & -> & Hp & Hd & Hf).
    exists (lower stem). rewrite lower_app. f_equal.
    destruct Hp as [-> | ->], Hd as [-> | ->], Hf as [-> | ->]; reflexivity.
Qed.

Lemma os_path_join_suffix (a b : str) : b `suffix_of` os_path_join a b.
Proof.
  unfold os_path_join. destruct (startswith b (lit "/")); [done|].
  destruct (negb (truthy a) || endswith a (lit "/")).
  - by apply suffix_app_r.
  - rewrite app_assoc. by apply suffix_app_r.
Qed.

(** A file saved under a name that ends in [.pdf] has a path that does. *)
Lemma endswith_lower_os_path_join (a name ext : str) :
  endswith (lower name) ext = true ->
  endswith (lower (os_path_join a name)) ext = true.
Proof.
  rewrite !endswith_suffix. intros Hext.
  destruct (os_path_join_suffix a name) as [k ->].
  rewrite lower_app. by apply suffix_app_r.
Qed.

End strings.

(** ** The monad *)

Lemma bind_Return {A B} (t : list event) (a : A) (k : A -> M B) :
  (t, Return a) ≫= k = (t ++ trace (k a), result (k a)).
Proof. unfold mbind, M_bind, bind, trace, result. by destruct (k a). Qed.

Lemma bind_Raise {A B} (t : list event) (e : exn) (k : A -> M B) :
  (t, Raise e) ≫= k = (t, Raise e).
Proof. reflexivity. Qed.

Lemma bind_Stopped {A B} (t : list event) (k : A -> M B) :
  (t, Stopped) ≫= k = (t, Stopped).
Proof. reflexivity. Qed.

Lemma trace_bind {A B} (m : M A) (k : A -> M B) :
  trace (m ≫= k) =
  trace m ++ match result m with Return a => trace (k a) | _ => [] end.
Proof.
  destruct m as [t [a|e|]]; unfold mbind, M_bind, bind, trace, result; simpl.
  - by destruct (k a).
  - by rewrite app_nil_r.
  - by rewrite app_nil_r.
Qed.

Lemma result_bind {A B} (m : M A) (k : A -> M B) :
  result (m ≫= k) =
  match result m with
  | Return a => result (k a)
  | Raise e => Raise e
  | Stopped => Stopped
  end.
Proof.
  destruct m as [t [a|e|]]; unfold mbind, M_bind, bind, trace, result; simpl;
    [by destruct (k a)|done|done].
Qed.

Lemma pair_trace_result {A} (m : M A) : m = (trace m, result m).
Proof. by destruct m. Qed.

(** ** The loop over the pages *)

Lemma for_pages_cons i page rest text :
  for_pages i (page :: rest) text =
  call_extract_text i page ≫= fun page_text =>
    match page_text with
    | Some t =>
        if truthy t then for_pages (S i) rest (text ++ (t ++ NL))
        else for_pages (S i) rest (text ++ (SCANNED_PAGE ++ NL))
    | None => for_pages (S i) rest (text ++ (SCANNED_PAGE ++ NL))
    end.
Proof. reflexivity. Qed.

Lemma for_pages_digital pages texts i text :
  Forall2 has_text_layer pages texts ->
  for_pages i pages text =
    (page_calls i (length pages),
     Return (text ++ concat ((fun t => t ++ NL) <$> texts))).
Proof.
  intros H. revert i text.
  induction H as [|page t pages texts [Hp Ht] _ IH]; intros i text.
  - simpl. by rewrite app_nil_r.
  - rewrite for_pages_cons. unfold call_extract_text, answer.
    rewrite Hp, bind_Return, Ht, IH.
    unfold trace, result, page_calls. simpl. by rewrite <- app_assoc.
Qed.

Lemma for_pages_scanned pages i text :
  Forall no_text_layer pages ->
  for_pages i pages text =
    (page_calls i (length pages),
     Return (text ++ concat ((fun t => t ++ NL) <$> replicate (length pages) SCANNED_PAGE))).
Proof.
  intros H. revert i text.
  induction H as [|page pages Hp _ IH]; intros i text.
  - simpl. by rewrite app_nil_r.
  - rewrite for_pages_cons. unfold call_extract_text, answer.
    destruct Hp as [-> | ->]; rewrite bind_Return; simpl truthy; cbv iota;
      rewrite IH; unfold trace, result, page_calls; simpl;
      by rewrite <- app_assoc.
Qed.

(** The loop makes no call but [extract_text], and it ends by returning
    or with the exception of the first page that raises. *)
Lemma for_pages_outcome pages i text :
  (exists n, trace (for_pages i pages text) = page_calls i n) /\
  match first_raise pages with
  | Some e => result (for_pages i pages text) = Raise e
  | None => exists text', result (for_pages i pages text) = Return text'
  end.
Proof.
  revert i text. induction pages as [|page pages IH]; intros i text.
  - split; [by exists 0%nat | simpl; by exists text].
  - rewrite for_pages_cons. unfold call_extract_text, answer. simpl first_raise.
    destruct (extract_text page) as [e | page_text].
    + rewrite bind_Raise. split; [by exists 1%nat | done].
    + rewrite trace_bind, result_bind. unfold trace at 1, result at 1 3. simpl.
      assert (Hk : forall text', (exists n, [page_extract_text i] ++ trace (for_pages (S i) pages text') = page_calls i n) /\
         match first_raise pages with
         | Some e => result (for_pages (S i) pages text') = Raise e
         | None => exists t, result (for_pages (S i) pages text') = Return t end).
      { intros text'. destruct (IH (S i) text') as [[n Hn] Hr]. split; [|done].
        exists (S n). by rewrite Hn. }
      destruct page_text as [t|]; [destruct (truthy t)|]; apply Hk.
Qed.

(** ** Exceptions *)

Lemma try_except_Return {A} t (a : A) h : try_except (t, Return a) h = (t, Return a).
Proof. reflexivity. Qed.

Lemma try_except_Raise {A} t e (h : exn -> M A) :
  try_except (t, Raise e) h = (t ++ trace (h e), result (h e)).
Proof. unfold try_except, trace, result. by destruct (h e). Qed.

Lemma mret_M {A} (a : A) : (mret a : M A) = ([], Return a).
Proof. reflexivity. Qed.

Lemma bind_call {B} (e : event) (k : unit -> M B) :
  call e ≫= k = ([e] ++ trace (k tt), result (k tt)).
Proof. apply bind_Return. Qed.

(** One step of a computation whose first call has answered. *)
Ltac mstep :=
  repeat (first
    [ rewrite mret_M | rewrite bind_Return | rewrite bind_Raise
    | rewrite bind_Stopped | rewrite try_except_Return
    | rewrite try_except_Raise
    | progress cbv beta
    | progress (unfold trace, result; cbn [fst snd]) ]).

(** The same, through the calls that return nothing as well. *)
Ltac mrun := repeat (first [ rewrite bind_call | progress mstep ]).

(** ** The branches of [extract_text_from_pdf] *)

(** The PDF branch, once the file is open. *)
Lemma extract_text_from_pdf_opened w file_path pages :
  endswith (lower file_path) (lit ".pdf") = true ->
  pdf_pages w file_path = inr pages ->
  extract_text_from_pdf w file_path =
    (pdfplumber_open file_path :: trace (for_pages 0 pages []),
     match result (for_pages 0 pages []) with
     | Return text => Return (strip text)
     | Raise e => Return (strip (lit "Error reading PDF: " ++ exn_str e))
     | Stopped => Stopped
     end).
Proof.
  intros Hpdf Hopen. unfold extract_text_from_pdf.
  rewrite Hpdf. unfold call_pdfplumber_open, answer. rewrite Hopen, bind_Return.
  destruct (for_pages 0 pages []) as [t [text|e|]]; mstep;
    by rewrite ?app_nil_r.
Qed.

Lemma extract_text_from_pdf_not_opened w file_path e :
  endswith (lower file_path) (lit ".pdf") = true ->
  pdf_pages w file_path = inl e ->
  extract_text_from_pdf w file_path =
    ([pdfplumber_open file_path],
     Return (strip (lit "Error reading PDF: " ++ exn_str e))).
Proof.
  intros Hpdf Hopen. unfold extract_text_from_pdf.
  rewrite Hpdf. unfold call_pdfplumber_open, answer. rewrite Hopen, bind_Raise.
  by mstep.
Qed.

(** The image branch. *)
Lemma extract_text_from_pdf_image w file_path :
  endswith (lower file_path) (lit ".pdf") = false ->
  extract_text_from_pdf w file_path =
    ([Image_open file_path],
     Return (strip match image_error w file_path with
                   | Some e => lit "Error reading image: " ++ exn_str e
                   | None => IMAGE_UPLOADED
                   end)).
Proof.
  intros Hpdf. unfold extract_text_from_pdf.
  rewrite Hpdf. unfold call_Image_open, failing.
  destruct (image_error w file_path) as [e|].
  - by mstep.
  - by mstep.
Qed.

Lemma strip_IMAGE_UPLOADED : strip IMAGE_UPLOADED = IMAGE_UPLOADED.
Proof. by vm_compute. Qed.

(** The scanned-page line repeated and joined by newlines has no white
    space at either end. *)
Lemma strip_scanned_pages n :
  strip (join NL (replicate n SCANNED_PAGE)) = join NL (replicate n SCANNED_PAGE).
Proof.
  destruct n as [|n]; [done|].
  apply (strip_trimmed _ 91 93); [| |done|done].
  - by destruct n.
  - induction n as [|n IH]; [by vm_compute|].
    change (join NL (replicate (S (S n)) SCANNED_PAGE))
      with (SCANNED_PAGE ++ NL ++ join NL (replicate (S n) SCANNED_PAGE)).
    rewrite !last_app, IH. done.
Qed.

(** The outcome of the PDF branch, whatever the pages do. *)
Lemma extract_text_from_pdf_pdf_branch w file_path :
  endswith (lower file_path) (lit ".pdf") = true ->
  exists n text,
    extract_text_from_pdf w file_path =
      (pdfplumber_open file_path :: page_calls 0 n, Return text).
Proof.
  intros Hpdf. destruct (pdf_pages w file_path) as [e|pages] eqn:Hopen.
  - exists 0%nat. eexists. by apply extract_text_from_pdf_not_opened.
  - rewrite (extract_text_from_pdf_opened w file_path pages) by done.
    destruct (for_pages_outcome pages 0 []) as [[n ->] Hr].
    exists n. destruct (first_raise pages) as [e|].
    + rewrite Hr. by eexists.
    + destruct Hr as [text ->]. by eexists.
Qed.

Lemma extract_text_from_pdf_returns w file_path :
  exists text, result (extract_text_from_pdf w file_path) = Return text.
Proof.
  destruct (endswith (lower file_path) (lit ".pdf")) eqn:Hpdf.
  - destruct (extract_text_from_pdf_pdf_branch w file_path Hpdf) as (n & text & ->).
    by exists text.
  - rewrite extract_text_from_pdf_image by done. by eexists.
Qed.

(** The calls of an extraction, by the branch it takes. *)
Lemma extract_text_from_pdf_trace w file_path :
  if endswith (lower file_path) (lit ".pdf")
  then exists n,
         trace (extract_text_from_pdf w file_path) =
           pdfplumber_open file_path :: page_calls 0 n
  else trace (extract_text_from_pdf w file_path) = [Image_open file_path].
Proof.
  destruct (endswith (lower file_path) (lit ".pdf")) eqn:Hpdf.
  - destruct (extract_text_from_pdf_pdf_branch w file_path Hpdf) as (n & text & ->).
    by exists n.
  - by rewrite extract_text_from_pdf_image.
Qed.

Lemma extract_text_from_pdf_events w file_path :
  Forall extraction_event (trace (extract_text_from_pdf w file_path)).
Proof.
  pose proof (extract_text_from_pdf_trace w file_path) as H.
  destruct (endswith (lower file_path) (lit ".pdf")).
  - destruct H as [n ->]. constructor; [done|].
    unfold page_calls. apply Forall_fmap, Forall_true. done.
  - rewrite H. by constructor.
Qed.
(** ** The JSON text of the error object *)

Lemma lex_chars_app st s1 s2 :
  lex_chars st (s1 ++ s2) =
  '(st', ts) ← lex_chars st s1;
  '(st'', ts') ← lex_chars st' s2;
  Some (st'', ts ++ ts').
Proof.
  revert st. induction s1 as [|c s1 IH]; intros st; simpl.
  - by destruct (lex_chars st s2) as [[??]|].
  - destruct (lex_step st c) as [[st1 ts1]|]; simpl; [|done].
    rewrite IH. destruct (lex_chars st1 s1) as [[st2 ts2]|]; simpl; [|done].
    destruct (lex_chars st2 s2) as [[st3 ts3]|]; simpl; [|done].
    by rewrite app_assoc.
Qed.

Lemma lex_run_app st s1 s2 :
  lex_run st (s1 ++ s2) =
  '(st', ts) ← lex_chars st s1; (ts ++.) <$> lex_run st' s2.
Proof.
  revert st. induction s1 as [|c s1 IH]; intros st; simpl.
  - by destruct (lex_run st s2).
  - destruct (lex_step st c) as [[st1 ts1]|]; simpl; [|done].
    rewrite IH. destruct (lex_chars st1 s1) as [[st2 ts2]|]; simpl; [|done].
    destruct (lex_run st2 s2); simpl; [|done].
    by rewrite app_assoc.
Qed.

Lemma hexval_hex_digit d : d < 16 -> hexval (hex_digit d) = Some d.
Proof.
  intros Hd. unfold hex_digit, hexval.
  destruct (N.ltb_spec d 10).
  - replace ((48 <=? 48 + d) && (48 + d <=? 57)) with true.
    + f_equal. lia.
    + symmetry. apply andb_true_iff. split; apply N.leb_le; lia.
  - replace ((48 <=? 87 + d) && (87 + d <=? 57)) with false.
    + replace ((97 <=? 87 + d) && (87 + d <=? 102)) with true.
      * f_equal. lia.
      * symmetry. apply andb_true_iff. split; apply N.leb_le; lia.
    + symmetry. apply andb_false_iff. right. apply N.leb_gt. lia.
Qed.

Lemma lex_chars_step st c s st' r :
  lex_step st c = Some (st', []) ->
  lex_chars st' s = Some r ->
  lex_chars st (c :: s) = Some r.
Proof. intros H1 H2. simpl. rewrite H1. simpl. rewrite H2. by destruct r. Qed.

Lemma lex_step_hex_digit acc hi more v d :
  d < 16 ->
  lex_step (L_uni acc hi more v) (hex_digit d) =
    Some (match more with
          | S more' => L_uni acc hi more' (v * 16 + d)
          | O => after_unicode acc hi (v * 16 + d)
          end, []).
Proof.
  intros Hd. unfold lex_step. rewrite hexval_hex_digit by done.
  by destruct more.
Qed.

Lemma after_unicode_in_string acc hi u :
  exists acc' hi', after_unicode acc hi u = L_str acc' hi'.
Proof.
  unfold after_unicode.
  destruct hi; repeat case_match; by eexists _, _.
Qed.

(** A [\u] escape as [json.dumps] writes it is read back as one escape:
    the lexer is inside the string again, and no token has ended. *)
Lemma lex_unicode_escape acc hi n :
  exists acc' hi',
    lex_chars (L_str acc hi) ([92; 117] ++ hex4 n) = Some (L_str acc' hi', []).
Proof.
  pose proof (N.mod_lt (n / 4096) 16) as H3.
  pose proof (N.mod_lt (n / 256) 16) as H2.
  pose proof (N.mod_lt (n / 16) 16) as H1.
  pose proof (N.mod_lt n 16) as H0.
  edestruct after_unicode_in_string as (acc' & hi' & E).
  exists acc', hi'. unfold hex4. cbn [app].
  eapply lex_chars_step; [reflexivity|].
  eapply lex_chars_step; [reflexivity|].
  eapply lex_chars_step; [apply lex_step_hex_digit; lia|].
  eapply lex_chars_step; [apply lex_step_hex_digit; lia|].
  eapply lex_chars_step; [apply lex_step_hex_digit; lia|].
  eapply lex_chars_step; [apply lex_step_hex_digit; lia|].
  simpl. by rewrite E.
Qed.

Lemma lex_encode_char acc hi c :
  exists acc' hi',
    lex_chars (L_str acc hi) (encode_char c) = Some (L_str acc' hi', []).
Proof.
  unfold encode_char.
  destruct (N.eqb_spec c 34); [by eexists _, _|].
  destruct (N.eqb_spec c 92); [by eexists _, _|].
  destruct (N.eqb_spec c 10); [by eexists _, _|].
  destruct (N.eqb_spec c 13); [by eexists _, _|].
  destruct (N.eqb_spec c 9); [by eexists _, _|].
  destruct (N.eqb_spec c 8); [by eexists _, _|].
  destruct (N.eqb_spec c 12); [by eexists _, _|].
  destruct ((32 <=? c) && (c <=? 126)) eqn:Hprint.
  - apply andb_true_iff in Hprint as [Hlo Hhi]. apply N.leb_le in Hlo.
    cbn [lex_chars lex_step].
    destruct (N.eqb_spec c 34); [done|]. destruct (N.eqb_spec c 92); [done|].
    destruct (N.ltb_spec c 32); [lia|]. by eexists _, _.
  - destruct (c <? 65536); [apply lex_unicode_escape|].
    cbv zeta. rewrite app_assoc, lex_chars_app.
    destruct (lex_unicode_escape acc hi
                (N.lor 55296 (N.land (N.shiftr (c - 65536) 10) 1023)))
      as (acc1 & hi1 & ->).
    cbn [mbind option_bind].
    destruct (lex_unicode_escape acc1 hi1 (N.lor 56320 (N.land (c - 65536) 1023)))
      as (acc2 & hi2 & ->).
    by eexists _, _.
Qed.

(** The characters of a string as [json.dumps] writes them keep the
    lexer inside the string. *)
Lemma lex_encode_chars s acc hi :
  exists acc' hi',
    lex_chars (L_str acc hi) (flat_map encode_char s) = Some (L_str acc' hi', []).
Proof.
  revert acc hi. induction s as [|c s IH]; intros acc hi; [by eexists _, _|].
  cbn [flat_map]. rewrite lex_chars_app.
  destruct (lex_encode_char acc hi c) as (acc1 & hi1 & ->). cbn [mbind option_bind].
  destruct (IH acc1 hi1) as (acc2 & hi2 & ->). by eexists _, _.
Qed.

Lemma json_dumps_api_error e :
  json_dumps (api_error e) =
    api_error_head ++ flat_map encode_char (exn_str e) ++ DQ ++ api_error_tail.
Proof.
  destruct e as [m]. unfold api_error.
  cbn [exn_str json_dumps fmap list_fmap join fst snd].
  unfold encode_string. rewrite flat_map_app, <- !app_assoc.
  generalize (flat_map encode_char m). intros body.
  vm_compute. reflexivity.
Qed.

Lemma lex_api_error_head :
  lex_chars L_start api_error_head =
    Some (L_str (lit "API Error: ") None, api_error_head_tokens).
Proof. by vm_compute. Qed.

Lemma lex_api_error_tail :
  lex_run L_start api_error_tail = Some api_error_tail_tokens.
Proof. by vm_compute. Qed.

Lemma parse_api_error_tokens m :
  parse_run (P_value [])
    (api_error_head_tokens ++ T_value (JString m) :: api_error_tail_tokens)
  = Some (api_error_read m).
Proof. by vm_compute. Qed.

(** The text printed for [api_error e] is a JSON text: it denotes the
    object, with some message in place of the message. *)
Lemma json_decode_api_error e :
  exists m, json_decode (json_dumps (api_error e)) = Some (api_error_read m).
Proof.
  rewrite json_dumps_api_error. unfold json_decode.
  rewrite lex_run_app, lex_api_error_head. cbn [mbind option_bind].
  rewrite lex_run_app.
  destruct (lex_encode_chars (exn_str e) (lit "API Error: ") None)
    as (acc & hi & ->).
  cbn [mbind option_bind]. exists (flush acc hi).
  change (DQ ++ api_error_tail) with (34 :: api_error_tail).
  cbn [lex_run lex_step]. change (34 =? 34) with true.
  cbn [mbind option_bind]. rewrite lex_api_error_tail.
  cbn [fmap option_fmap option_map mbind option_bind app].
  apply parse_api_error_tokens.
Qed.

(** The tokens of the text printed for [api_error e]. *)
Lemma lex_run_api_error e :
  exists m,
    lex_run L_start (json_dumps (api_error e)) =
      Some (api_error_head_tokens ++ T_value (JString m) :: api_error_tail_tokens).
Proof.
  rewrite json_dumps_api_error.
  rewrite lex_run_app, lex_api_error_head. cbn [mbind option_bind].
  rewrite lex_run_app.
  destruct (lex_encode_chars (exn_str e) (lit "API Error: ") None)
    as (acc & hi & ->).
  cbn [mbind option_bind]. exists (flush acc hi).
  change (DQ ++ api_error_tail) with (34 :: api_error_tail).
  cbn [lex_run lex_step]. change (34 =? 34) with true.
  cbn [mbind option_bind]. by rewrite lex_api_error_tail.
Qed.

(** That text has no number and nests three objects: an interpreter that
    can enter three reads it. *)
Lemma json_loads_value_api_error w e :
  3 <= recursion_limit w ->
  json_loads_value w (json_dumps (api_error e)) =
    json_decode (json_dumps (api_error e)).
Proof.
  intros Hdepth. unfold json_loads_value, json_decode.
  destruct (lex_run_api_error e) as [m ->]. cbn [mbind option_bind].
  replace (existsb (int_too_long (int_max_str_digits w))
             (api_error_head_tokens ++ T_value (JString m) :: api_error_tail_tokens))
    with false by reflexivity.
  replace (nesting 0
             (api_error_head_tokens ++ T_value (JString m) :: api_error_tail_tokens))
    with 3 by reflexivity.
  cbn [orb]. by rewrite (proj2 (N.ltb_ge _ _) Hdepth).
Qed.

Lemma hex4_value n :
  n < 65536 ->
  (((0 * 16 + n / 4096 mod 16) * 16 + n / 256 mod 16) * 16 + n / 16 mod 16) * 16
    + n mod 16 = n.
Proof. intros Hn. lia. Qed.

(** A [\u] escape of a number below 65536 is read back as that number. *)
Lemma lex_unicode_escape_value acc hi n :
  n < 65536 ->
  lex_chars (L_str acc hi) ([92; 117] ++ hex4 n) = Some (after_unicode acc hi n, []).
Proof.
  intros Hn.
  pose proof (N.mod_lt (n / 4096) 16) as H3.
  pose proof (N.mod_lt (n / 256) 16) as H2.
  pose proof (N.mod_lt (n / 16) 16) as H1.
  pose proof (N.mod_lt n 16) as H0.
  unfold hex4. cbn [app].
  eapply lex_chars_step; [reflexivity|].
  eapply lex_chars_step; [reflexivity|].
  eapply lex_chars_step; [apply lex_step_hex_digit; lia|].
  eapply lex_chars_step; [apply lex_step_hex_digit; lia|].
  eapply lex_chars_step; [apply lex_step_hex_digit; lia|].
  eapply lex_chars_step; [apply lex_step_hex_digit; lia|].
  simpl. by rewrite hex4_value.
Qed.

Lemma lor_low_bits a x :
  N.land a 1023 = 0 -> N.lor a (N.land x 1023) = a + x mod 1024.
Proof.
  intros Ha.
  assert (Hdisjoint : N.land a (N.land x 1023) = 0).
  { by rewrite (N.land_comm x), N.land_assoc, Ha, N.land_0_l. }
  rewrite <- N.lxor_lor, <- N.add_nocarry_lxor by done.
  change 1023 with (N.ones 10). by rewrite N.land_ones.
Qed.

(** The two halves of a surrogate pair, and what joining them gives. *)
Lemma surrogate_pair v :
  v < 1048576 ->
  let s1 := N.lor 55296 (N.land (N.shiftr v 10) 1023) in
  let s2 := N.lor 56320 (N.land v 1023) in
  s1 < 65536 /\ s2 < 65536 /\
  is_high_surrogate s1 = true /\ is_low_surrogate s2 = true /\
  join_surrogates s1 s2 = 65536 + v.
Proof.
  intros Hv s1 s2. subst s1 s2.
  rewrite !lor_low_bits by done. rewrite N.shiftr_div_pow2.
  change (2 ^ 10) with 1024.
  pose proof (N.mod_lt (v / 1024) 1024) as H1.
  pose proof (N.mod_lt v 1024) as H2.
  unfold is_high_surrogate, is_low_surrogate, join_surrogates.
  repeat split; try lia.
  - apply andb_true_iff. split; apply N.leb_le; lia.
  - apply andb_true_iff. split; apply N.leb_le; lia.
Qed.

(** A scalar value as [json.dumps] writes it is read back as itself. *)
Lemma lex_encode_scalar acc c :
  scalar_value c ->
  lex_chars (L_str acc None) (encode_char c) = Some (L_str (acc ++ [c]) None, []).
Proof.
  intros [Hmax Hsur]. unfold encode_char.
  destruct (N.eqb_spec c 34) as [->|]; [done|].
  destruct (N.eqb_spec c 92) as [->|]; [done|].
  destruct (N.eqb_spec c 10) as [->|]; [done|].
  destruct (N.eqb_spec c 13) as [->|]; [done|].
  destruct (N.eqb_spec c 9) as [->|]; [done|].
  destruct (N.eqb_spec c 8) as [->|]; [done|].
  destruct (N.eqb_spec c 12) as [->|]; [done|].
  destruct ((32 <=? c) && (c <=? 126)) eqn:Hprint.
  - apply andb_true_iff in Hprint as [Hlo Hhi]. apply N.leb_le in Hlo.
    cbn [lex_chars lex_step].
    destruct (N.eqb_spec c 34); [done|]. destruct (N.eqb_spec c 92); [done|].
    destruct (N.ltb_spec c 32); [lia|]. done.
  - destruct (N.ltb_spec c 65536) as [Hbmp|Hastral].
    + rewrite lex_unicode_escape_value by done. unfold after_unicode.
      replace (is_high_surrogate c) with false; [done|].
      symmetry. apply andb_false_iff.
      destruct (N.leb_spec 55296 c); [right; apply N.leb_gt; lia | by left].
    + cbv zeta. rewrite app_assoc, lex_chars_app.
      destruct (surrogate_pair (c - 65536)) as (H1 & H2 & Hhigh & Hlow & Hjoin);
        [lia|].
      rewrite lex_unicode_escape_value by done. cbn [mbind option_bind].
      unfold after_unicode at 1. rewrite Hhigh.
      rewrite lex_unicode_escape_value by done.
      unfold after_unicode. rewrite Hlow, Hjoin.
      cbn [mbind option_bind app].
      by replace (65536 + (c - 65536)) with c by lia.
Qed.

Lemma lex_encode_scalars s acc :
  Forall scalar_value s ->
  lex_chars (L_str acc None) (flat_map encode_char s) = Some (L_str (acc ++ s) None, []).
Proof.
  intros Hs. revert acc. induction Hs as [|c s Hc _ IH]; intros acc.
  - by rewrite app_nil_r.
  - cbn [flat_map]. rewrite lex_chars_app, lex_encode_scalar by done.
    cbn [mbind option_bind]. rewrite IH. cbn [mbind option_bind app].
    by rewrite <- app_assoc.
Qed.

Lemma extract_json_from_text_eq w extracted_text :
  extract_json_from_text w extracted_text =
    ([genai_GenerativeModel MODEL_NAME;
      generate_content MODEL_NAME PROMPT extracted_text],
     Return match gemini w MODEL_NAME PROMPT extracted_text with
            | inr response_text => strip response_text
            | inl e => json_dumps (api_error e)
            end).
Proof.
  unfold extract_json_from_text, call, call_generate_content, answer.
  destruct (gemini w MODEL_NAME PROMPT extracted_text) as [e|r]; by mstep.
Qed.

(** What [json.loads] returns is the value the text denotes; it raises
    on every text that is not JSON. *)
Lemma json_loads_value_decode w s v :
  json_loads_value w s = Some v -> json_decode s = Some v.
Proof.
  unfold json_loads_value, json_decode.
  destruct (lex_run L_start s) as [ts|]; [|done]. cbn [mbind option_bind].
  by destruct (existsb _ ts || _).
Qed.

Lemma json_loads_value_not_json w s :
  json_decode s = None -> json_loads_value w s = None.
Proof.
  intros Hs. destruct (json_loads_value w s) as [v|] eqn:Hv; [|done].
  apply json_loads_value_decode in Hv. congruence.
Qed.

Lemma show_response_eq w json_result :
  show_response w json_result =
    ([match json_loads_value w json_result with
      | Some v => st_json v
      | None => st_text json_result
      end], Return tt).
Proof.
  unfold show_response, json_loads, call, raise.
  destruct (json_loads_value w json_result) as [v|]; by mstep.
Qed.

(** ** The button *)

Lemma respond_eq w x :
  (if truthy x return M unit then
     call (st_subheader (lit "Extracted Text (Preview)"));;
     call (st_text_area (lit "Extracted Text") x);;
     call (st_spinner (lit "Processing with Gemini API..."));;
     json_result ← extract_json_from_text w x;
     call (st_subheader (lit "AI Response:"));;
     show_response w json_result
   else
     call (st_warning (lit "Could not extract any text from this file.")))
  = (response_events w x, Return tt).
Proof.
  unfold response_events, model_reply. destruct (truthy x); [|done].
  unfold call. rewrite extract_json_from_text_eq. mstep.
  by rewrite show_response_eq.
Qed.

Lemma process_button_text w text_input :
  process_button w text_input None = (response_events w (strip text_input), Return tt).
Proof.
  unfold process_button.
  destruct (truthy (strip text_input)) eqn:Ht; mstep; rewrite respond_eq; mstep.
  - done.
  - by destruct (strip text_input).
Qed.

(** The button with an upload, when the directory cannot be made and
    when the file cannot be written: nothing else runs. *)
Lemma process_button_makedirs_fails w text_input f e :
  fs_makedirs w (lit "uploads") = Some e ->
  process_button w text_input (Some f) = ([os_makedirs (lit "uploads")], Raise e).
Proof.
  intros Hdir. unfold process_button, failing. rewrite Hdir. by mstep.
Qed.

Lemma process_button_write_fails w text_input f e :
  fs_makedirs w (lit "uploads") = None ->
  fs_write w (os_path_join (lit "uploads") (uf_name f)) = Some e ->
  process_button w text_input (Some f) =
    ([os_makedirs (lit "uploads");
      file_write (os_path_join (lit "uploads") (uf_name f)) (uf_buffer f)],
     Raise e).
Proof.
  intros Hdir Hwrite. unfold process_button, failing. cbv zeta.
  rewrite Hdir, Hwrite. by mstep.
Qed.

Lemma process_button_upload w text_input f :
  let file_path := os_path_join (lit "uploads") (uf_name f) in
  fs_makedirs w (lit "uploads") = None ->
  fs_write w file_path = None ->
  accepted_type (uf_type f) ->
  exists x,
    result (extract_text_from_pdf w file_path) = Return x /\
    process_button w text_input (Some f) =
      (os_makedirs (lit "uploads") :: file_write file_path (uf_buffer f)
         :: trace (extract_text_from_pdf w file_path) ++ response_events w x,
       Return tt).
Proof.
  intros file_path Hdir Hwrite Htype.
  destruct (extract_text_from_pdf_returns w file_path) as [x Hx].
  exists x. split; [done|].
  unfold process_button, failing. cbv zeta. fold file_path. rewrite Hdir, Hwrite.
  assert (Hcall :
    (if bool_decide (uf_type f = lit "application/pdf") then
       extract_text_from_pdf w file_path
     else if bool_decide (uf_type f ∈ [lit "image/png"; lit "image/jpeg"]) then
       extract_text_from_pdf w file_path
     else mret []) = extract_text_from_pdf w file_path).
  { case_bool_decide as H1; [done|]. case_bool_decide as H2; [done|].
    unfold accepted_type in Htype. apply elem_of_cons in Htype as [?|?]; done. }
  rewrite Hcall. destruct (extract_text_from_pdf w file_path) as [t o].
  unfold result in Hx. cbn [snd] in Hx. subst o.
  mstep. rewrite respond_eq. by mstep.
Qed.

(** The one remote call among the calls that follow the extraction sends
    the extracted text. *)
Lemma response_events_remote_call w x model prompt text :
  generate_content model prompt text ∈ response_events w x -> text = x.
Proof.
  unfold response_events. destruct (truthy x).
  - rewrite !elem_of_cons, elem_of_nil.
    intros [H|[H|[H|[H|[H|[H|[H|[]]]]]]]]; try discriminate H.
    + by injection H.
    + destruct (json_loads_value w (model_reply w x)); discriminate H.
  - rewrite list_elem_of_singleton. discriminate.
Qed.

Lemma response_events_no_open w x :
  Forall (fun e => ~ extraction_event e) (response_events w x).
Proof.
  unfold response_events. destruct (truthy x).
  - repeat (constructor; [by intros []|]).
    constructor; [|constructor].
    destruct (json_loads_value w (model_reply w x)); by intros [].
  - repeat constructor. by intros [].
Qed.

(** The upload is saved and its MIME type is none of the three. *)
Lemma process_button_not_accepted w text_input f :
  fs_makedirs w (lit "uploads") = None ->
  fs_write w (os_path_join (lit "uploads") (uf_name f)) = None ->
  ~ accepted_type (uf_type f) ->
  process_button w text_input (Some f) =
    ([os_makedirs (lit "uploads");
      file_write (os_path_join (lit "uploads") (uf_name f)) (uf_buffer f);
      st_warning (lit "Could not extract any text from this file.")],
     Return tt).
Proof.
  intros Hdir Hwrite Htype. unfold process_button, failing. cbv zeta.
  rewrite Hdir, Hwrite. unfold accepted_type in Htype.
  rewrite !bool_decide_eq_false_2.
  - by mstep.
  - intros H. apply Htype. by right.
  - intros H. apply Htype. rewrite H. by left.
Qed.

(** What the button does with an uploaded file, case by case. *)
Lemma process_button_upload_cases w text_input f :
  let file_path := os_path_join (lit "uploads") (uf_name f) in
  let saved := [os_makedirs (lit "uploads"); file_write file_path (uf_buffer f)] in
  (exists e, process_button w text_input (Some f) =
               ([os_makedirs (lit "uploads")], Raise e)) \/
  (exists e, process_button w text_input (Some f) = (saved, Raise e)) \/
  process_button w text_input (Some f) =
    (saved ++ [st_warning (lit "Could not extract any text from this file.")],
     Return tt) \/
  (exists x,
     fs_makedirs w (lit "uploads") = None /\
     fs_write w file_path = None /\ accepted_type (uf_type f) /\
     result (extract_text_from_pdf w file_path) = Return x /\
     process_button w text_input (Some f) =
       (saved ++ trace (extract_text_from_pdf w file_path) ++ response_events w x,
        Return tt)).
Proof.
  intros file_path saved.
  destruct (fs_makedirs w (lit "uploads")) as [e|] eqn:Hdir.
  { left. exists e. by apply process_button_makedirs_fails. }
  destruct (fs_write w file_path) as [e|] eqn:Hwrite.
  { right. left. exists e. by apply process_button_write_fails. }
  destruct (decide (accepted_type (uf_type f))) as [Htype|Htype].
  - do 3 right.
    destruct (process_button_upload w text_input f Hdir Hwrite Htype) as (x & Hx & ->).
    by exists x.
  - right. right. left. by apply process_button_not_accepted.
Qed.

(** The button makes the same calls for every accepted MIME type. *)
Lemma process_button_accepted_type w text_input f :
  accepted_type (uf_type f) ->
  process_button w text_input (Some f) =
  process_button w text_input
    (Some {| uf_name := uf_name f; uf_type := lit "application/pdf";
             uf_buffer := uf_buffer f |}).
Proof.
  intros Htype. unfold process_button. cbn [uf_name uf_type uf_buffer].
  destruct (bool_decide (lit "application/pdf" = lit "application/pdf")) eqn:Hrefl;
    [|by apply bool_decide_eq_false in Hrefl].
  repeat case_bool_decide; try done.
  unfold accepted_type in Htype. by apply elem_of_cons in Htype as [?|?].
Qed.

Lemma process_button_not_stopped w text_input uploaded_file :
  result (process_button w text_input uploaded_file) <> Stopped.
Proof.
  destruct uploaded_file as [f|].
  - destruct (process_button_upload_cases w text_input f)
      as [[e ->] | [[e ->] | [-> | (x & _ & _ & _ & _ & ->)]]]; done.
  - by rewrite process_button_text.
Qed.

Lemma startup_eq w :
  startup w =
    match environ w !! lit "GEMINI_API_KEY" with
    | Some (c :: key) => ([genai_configure (c :: key)], Return tt)
    | _ => ([st_error API_KEY_MISSING; st_stop], Stopped)
    end.
Proof.
  unfold startup. destruct (environ w !! lit "GEMINI_API_KEY") as [[|c key]|]; done.
Qed.

(** One run of the script, once startup has returned: the page is drawn,
    the button does its work when it is pressed, and the sidebar is
    filled unless that work raised. *)
Lemma script_eq w text_input uploaded_file pressed :
  script w text_input uploaded_file pressed =
    match startup w with
    | (t0, Return _) =>
        let m := if pressed then process_button w text_input uploaded_file
                 else mret tt in
        (t0 ++ page_head
            ++ match result m with
               | Return _ => trace m ++ page_foot
               | _ => trace m
               end,
         match result m with
         | Return _ => Return tt
         | Raise e => Raise e
         | Stopped => Stopped
         end)
    | (t0, Raise e) => (t0, Raise e)
    | (t0, Stopped) => (t0, Stopped)
    end.
Proof.
  unfold script. destruct (startup w) as [t0 [[]|e|]]; [|done|done].
  cbv zeta.
  destruct (if pressed then process_button w text_input uploaded_file else mret tt)
    as [t [[]|e|]]; reflexivity.
Qed.

(** * The claims of the specification *)

(** ** Text extraction *)

(** C1, as amended.  For a path that ends in [.pdf], a file that opens
    and pages that all have a text layer, [extract_text_from_pdf] opens
    the file, reads every page in order and returns the page texts joined
    by newlines, with the white space at the two ends of that text
    removed. *)
Theorem extract_text_from_pdf_digital w file_path pages texts :
  endswith (lower file_path) (lit ".pdf") = true ->
  pdf_pages w file_path = inr pages ->
  Forall2 has_text_layer pages texts ->
  extract_text_from_pdf w file_path =
    (pdfplumber_open file_path :: page_calls 0 (length pages),
     Return (strip (join NL texts))).
Proof.
  intros Hpdf Hopen Htexts.
  rewrite (extract_text_from_pdf_opened w file_path pages) by done.
  rewrite (for_pages_digital pages texts) by done. mstep.
  by rewrite app_nil_l, strip_concat_newline.
Qed.

(** C1 at [notice.pdf]: two pages, [ Title] and [Body ] with their blanks. *)
Lemma extract_text_from_pdf_digital_witness :
  endswith (lower (lit "notice.pdf")) (lit ".pdf") = true /\
  pdf_pages padded_world (lit "notice.pdf") = inr (text_page <$> padded_texts) /\
  Forall2 has_text_layer (text_page <$> padded_texts) padded_texts /\
  extract_text_from_pdf padded_world (lit "notice.pdf") =
    ([pdfplumber_open (lit "notice.pdf"); page_extract_text 0; page_extract_text 1],
     Return (lit "Title" ++ NL ++ lit "Body")).
Proof.
  assert (H : Forall2 has_text_layer (text_page <$> padded_texts) padded_texts)
    by repeat constructor.
  split; [reflexivity|]. split; [reflexivity|]. split; [exact H|].
  rewrite (extract_text_from_pdf_digital padded_world (lit "notice.pdf")
             (text_page <$> padded_texts) padded_texts);
    [reflexivity | reflexivity | reflexivity | exact H].
Defined.

(** C1 as it is stated fails: the pages of [notice.pdf] all have a text
    layer, and what is returned is not their texts joined by newlines,
    because the blank before the first text and the blank after the last
    are gone. *)
Lemma extract_text_from_pdf_digital_not_join :
  endswith (lower (lit "notice.pdf")) (lit ".pdf") = true /\
  pdf_pages padded_world (lit "notice.pdf") = inr (text_page <$> padded_texts) /\
  Forall2 has_text_layer (text_page <$> padded_texts) padded_texts /\
  result (extract_text_from_pdf padded_world (lit "notice.pdf"))
    = Return (lit "Title" ++ NL ++ lit "Body") /\
  join NL padded_texts = lit " Title" ++ NL ++ lit "Body " /\
  result (extract_text_from_pdf padded_world (lit "notice.pdf"))
    <> Return (join NL padded_texts).
Proof.
  split; [reflexivity|]. split; [reflexivity|].
  split; [repeat constructor|]. split; [reflexivity|]. split; [reflexivity|].
  by vm_compute.
Qed.

(** C2, as amended.  A PDF that opens and whose pages all lack a text
    layer gives the scanned-page line once per page, the lines joined by
    newlines (the empty text for a PDF of no page).  A path that does not
    end in [.pdf] gives the image line when PIL opens the file, whatever
    the file holds beyond that. *)
Theorem extract_text_from_pdf_without_ocr w file_path :
  (forall pages,
     endswith (lower file_path) (lit ".pdf") = true ->
     pdf_pages w file_path = inr pages ->
     Forall no_text_layer pages ->
     result (extract_text_from_pdf w file_path) =
       Return (join NL (replicate (length pages) SCANNED_PAGE))) /\
  (endswith (lower file_path) (lit ".pdf") = false ->
   image_error w file_path = None ->
   result (extract_text_from_pdf w file_path) = Return IMAGE_UPLOADED).
Proof.
  split.
  - intros pages Hpdf Hopen Hscanned.
    rewrite (extract_text_from_pdf_opened w file_path pages) by done.
    rewrite for_pages_scanned by done. mstep.
    by rewrite app_nil_l, strip_concat_newline, strip_scanned_pages.
  - intros Hpdf Himage. rewrite extract_text_from_pdf_image by done.
    rewrite Himage. mstep. by rewrite strip_IMAGE_UPLOADED.
Qed.

(** C2 at a scanned PDF of two pages and at an image that opens. *)
Lemma extract_text_from_pdf_without_ocr_witness :
  result (extract_text_from_pdf scans_world (lit "scan.pdf")) =
    Return (SCANNED_PAGE ++ NL ++ SCANNED_PAGE) /\
  result (extract_text_from_pdf scans_world (lit "photo.png")) = Return IMAGE_UPLOADED.
Proof.
  destruct (extract_text_from_pdf_without_ocr scans_world (lit "scan.pdf"))
    as [Hscan _].
  destruct (extract_text_from_pdf_without_ocr scans_world (lit "photo.png"))
    as [_ Himage].
  split.
  - apply (Hscan [blank_page; text_page []]); [reflexivity|reflexivity|].
    constructor; [by left|]. constructor; [by right|]. constructor.
  - apply Himage; reflexivity.
Defined.

(** C2 as it is stated fails: a scanned PDF of two pages, an image that
    opens and a file with an image name that PIL cannot read give three
    different texts, so no one fixed text is returned for all of them. *)
Lemma extract_text_from_pdf_no_fixed_placeholder :
  (endswith (lower (lit "scan.pdf")) (lit ".pdf") = true /\
   pdf_pages scans_world (lit "scan.pdf") = inr [blank_page; text_page []] /\
   Forall no_text_layer [blank_page; text_page []] /\
   result (extract_text_from_pdf scans_world (lit "scan.pdf")) =
     Return (SCANNED_PAGE ++ NL ++ SCANNED_PAGE)) /\
  result (extract_text_from_pdf scans_world (lit "photo.png")) = Return IMAGE_UPLOADED /\
  result (extract_text_from_pdf scans_world (lit "notes.png")) =
    Return (lit "Error reading image: cannot identify image file") /\
  ~ exists placeholder,
      Forall (fun p => result (extract_text_from_pdf scans_world p) = Return placeholder)
        [lit "scan.pdf"; lit "photo.png"; lit "notes.png"].
Proof.
  split; [|split; [|split]].
  - split; [reflexivity|]. split; [reflexivity|]. split; [|reflexivity].
    constructor; [by left|]. constructor; [by right|]. constructor.
  - reflexivity.
  - reflexivity.
  - intros [placeholder H].
    apply Forall_cons in H as [H1 H]. apply Forall_cons in H as [H2 _].
    vm_compute in H1, H2. congruence.
Qed.

(** C7.  [extract_text_from_pdf] returns a text for every path: it never
    raises.  When opening the PDF raises, when reading a page raises, or
    when opening the image raises, the text it returns is the error line
    of that branch followed by the message of the exception (with the
    white space at its ends removed, as for every returned text). *)
Theorem extract_text_from_pdf_never_raises w file_path :
  (exists text, result (extract_text_from_pdf w file_path) = Return text) /\
  (forall e,
     endswith (lower file_path) (lit ".pdf") = true ->
     pdf_pages w file_path = inl e ->
     result (extract_text_from_pdf w file_path) =
       Return (strip (lit "Error reading PDF: " ++ exn_str e))) /\
  (forall pages e,
     endswith (lower file_path) (lit ".pdf") = true ->
     pdf_pages w file_path = inr pages ->
     first_raise pages = Some e ->
     result (extract_text_from_pdf w file_path) =
       Return (strip (lit "Error reading PDF: " ++ exn_str e))) /\
  (forall e,
     endswith (lower file_path) (lit ".pdf") = false ->
     image_error w file_path = Some e ->
     result (extract_text_from_pdf w file_path) =
       Return (strip (lit "Error reading image: " ++ exn_str e))).
Proof.
  split; [apply extract_text_from_pdf_returns|]. split; [|split].
  - intros e Hpdf Hopen. by rewrite (extract_text_from_pdf_not_opened w file_path e).
  - intros pages e Hpdf Hopen Hraise.
    rewrite (extract_text_from_pdf_opened w file_path pages) by done.
    destruct (for_pages_outcome pages 0 []) as [_ Hr]. rewrite Hraise in Hr.
    by rewrite Hr.
  - intros e Hpdf Himage. rewrite extract_text_from_pdf_image by done.
    by rewrite Himage.
Qed.

(** C7 at a file that is no PDF, a PDF with a page that cannot be read
    and an image that cannot be opened. *)
Lemma extract_text_from_pdf_never_raises_witness :
  result (extract_text_from_pdf scans_world (lit "missing.pdf")) =
    Return (lit "Error reading PDF: No /Root object! - Is this really a PDF?") /\
  result (extract_text_from_pdf scans_world (lit "torn.pdf")) =
    Return (lit "Error reading PDF: bad xref") /\
  result (extract_text_from_pdf scans_world (lit "notes.png")) =
    Return (lit "Error reading image: cannot identify image file").
Proof.
  split; [|split].
  - destruct (extract_text_from_pdf_never_raises scans_world (lit "missing.pdf"))
      as (_ & H & _).
    by rewrite (H (Exception (lit "No /Root object! - Is this really a PDF?"))).
  - destruct (extract_text_from_pdf_never_raises scans_world (lit "torn.pdf"))
      as (_ & _ & H & _).
    by rewrite (H [text_page (lit "page one"); broken_page (Exception (lit "bad xref "))]
                  (Exception (lit "bad xref "))).
  - destruct (extract_text_from_pdf_never_raises scans_world (lit "notes.png"))
      as (_ & _ & _ & H).
    by rewrite (H (Exception (lit "cannot identify image file"))).
Defined.

(** ** Structured extraction and display *)

(** C3, as amended.  When the remote call raises,
    [extract_json_from_text] returns a text and does not raise; the text
    is a JSON text, and in the object it denotes the field
    [document_type] of the object under [properties] is the string
    [error]; the object itself has no field [document_type]. *)
Theorem extract_json_from_text_api_error w extracted_text e :
  gemini w MODEL_NAME PROMPT extracted_text = inl e ->
  exists s v,
    result (extract_json_from_text w extracted_text) = Return s /\
    json_decode s = Some v /\
    json_field (lit "properties") v ≫= json_field (lit "document_type")
      = Some (JString (lit "error")) /\
    json_field (lit "document_type") v = None.
Proof.
  intros Hcall. rewrite extract_json_from_text_eq, Hcall.
  destruct (json_decode_api_error e) as [m Hm].
  exists (json_dumps (api_error e)), (api_error_read m).
  split; [done|]. split; [done|]. split; by vm_compute.
Qed.

(** C3 at an outage of the hosted model. *)
Lemma extract_json_from_text_api_error_witness :
  gemini outage_world MODEL_NAME PROMPT (lit "Name: A. Kumar") = inl outage /\
  exists s v,
    result (extract_json_from_text outage_world (lit "Name: A. Kumar")) = Return s /\
    json_decode s = Some v /\
    json_field (lit "properties") v ≫= json_field (lit "document_type")
      = Some (JString (lit "error")) /\
    json_field (lit "document_type") v = None.
Proof.
  split; [reflexivity|].
  apply (extract_json_from_text_api_error outage_world (lit "Name: A. Kumar") outage).
  reflexivity.
Defined.

(** C3 as it is stated fails: at an outage of the hosted model the text
    returned is a JSON text, and the field [document_type] of the object
    it denotes is not the string [error]: the object has no such field,
    the string sits one level down. *)
Lemma extract_json_from_text_api_error_not_top_level :
  gemini outage_world MODEL_NAME PROMPT (lit "Name: A. Kumar") = inl outage /\
  exists s v,
    result (extract_json_from_text outage_world (lit "Name: A. Kumar")) = Return s /\
    json_decode s = Some v /\
    json_field (lit "document_type") v = None /\
    json_field (lit "document_type") v <> Some (JString (lit "error")).
Proof.
  split; [reflexivity|].
  eexists _, _. split; [reflexivity|]. split; [by vm_compute|].
  split; by vm_compute.
Qed.

(** C4.  For a text that is not a JSON text, the display does not raise
    and makes one call, [st.text] of the text as it is. *)
Theorem show_response_not_json w json_result :
  json_decode json_result = None ->
  show_response w json_result = ([st_text json_result], Return tt).
Proof.
  intros H. by rewrite show_response_eq, (json_loads_value_not_json w _ H).
Qed.

(** C4 at an answer wrapped in a code fence. *)
Lemma show_response_not_json_witness :
  result (extract_json_from_text fenced_world (lit "Name: A. Kumar")) =
    Return fenced_reply /\
  json_decode fenced_reply = None /\
  show_response fenced_world fenced_reply = ([st_text fenced_reply], Return tt).
Proof.
  split; [reflexivity|]. split; [reflexivity|].
  apply show_response_not_json. reflexivity.
Defined.

(** ** The button *)

(** C5.  With a text input that is empty or all white space and no
    uploaded file, a press of the button makes one call, the warning; and
    the whole run of the script, pressed or not, makes no call of the
    hosted model. *)
Theorem process_button_no_input w text_input :
  strip text_input = [] ->
  process_button w text_input None =
    ([st_warning (lit "Could not extract any text from this file.")], Return tt) /\
  forall pressed,
    Forall (fun e => ~ remote_call e) (trace (script w text_input None pressed)).
Proof.
  intros Hempty. rewrite process_button_text, Hempty. split; [done|].
  intros pressed. rewrite script_eq, startup_eq, process_button_text, Hempty.
  unfold page_head, page_foot, response_events, trace, result.
  destruct (environ w !! lit "GEMINI_API_KEY") as [[|c key]|], pressed;
    cbn [fst snd app truthy];
    repeat (constructor; [by intros []|]); constructor.
Qed.

(** C5 at a text input of two blanks and a newline. *)
Lemma process_button_no_input_witness :
  strip (lit "  " ++ NL) = [] /\
  process_button outage_world (lit "  " ++ NL) None =
    ([st_warning (lit "Could not extract any text from this file.")], Return tt).
Proof.
  split; [reflexivity|].
  apply (process_button_no_input outage_world (lit "  " ++ NL)). reflexivity.
Defined.

(** C9.  With an uploaded file, what a press of the button does is the
    same for every text in the text box; and a text sent to the hosted
    model is the text [extract_text_from_pdf] returned for the saved
    file. *)
Theorem process_button_upload_ignores_text w f text_input text_input' :
  process_button w text_input (Some f) = process_button w text_input' (Some f) /\
  forall model prompt text,
    generate_content model prompt text ∈ trace (process_button w text_input (Some f)) ->
    result (extract_text_from_pdf w (os_path_join (lit "uploads") (uf_name f)))
      = Return text.
Proof.
  split; [reflexivity|]. intros model prompt text.
  destruct (process_button_upload_cases w text_input f)
    as [[e ->] | [[e ->] | [-> | (x & _ & _ & _ & Hx & ->)]]];
    unfold trace; cbn [fst].
  - rewrite !elem_of_cons, elem_of_nil. by intros [?|[]].
  - rewrite !elem_of_cons, elem_of_nil. by intros [?|[?|[]]].
  - cbn [app]. rewrite !elem_of_cons, elem_of_nil. by intros [?|[?|[?|[]]]].
  - cbn [app]. rewrite !elem_of_cons, elem_of_app.
    intros [H|[H|[H|H]]]; try discriminate H.
    + pose proof (extract_text_from_pdf_events w
                    (os_path_join (lit "uploads") (uf_name f))) as Hev.
      rewrite Forall_forall in Hev. by destruct (Hev _ H).
    + apply response_events_remote_call in H as ->. exact Hx.
Qed.

(** C9 at an uploaded PDF with a text typed beside it: the typed text is
    in no call. *)
Lemma process_button_upload_ignores_text_witness :
  trace (process_button upload_world (lit "my name is Asha") (Some card_pdf)) =
    [ os_makedirs (lit "uploads");
      file_write (lit "uploads/card.pdf") [37; 80; 68; 70];
      pdfplumber_open (lit "uploads/card.pdf");
      page_extract_text 0;
      st_subheader (lit "Extracted Text (Preview)");
      st_text_area (lit "Extracted Text") (lit "PAN ABCDE1234F");
      st_spinner (lit "Processing with Gemini API...");
      genai_GenerativeModel MODEL_NAME;
      generate_content MODEL_NAME PROMPT (lit "PAN ABCDE1234F");
      st_subheader (lit "AI Response:");
      st_json (JObject []) ].
Proof.
  destruct (process_button_upload_ignores_text upload_world card_pdf
              (lit "my name is Asha") []) as [-> _].
  reflexivity.
Defined.

(** C10.  [extract_text_from_pdf] opens the file with pdfplumber when
    the lower-cased path ends in [.pdf] and with PIL otherwise, and makes
    no other call than reading pages; the button runs it the same way for
    every accepted MIME type; so an upload declared an image whose name
    ends in [.pdf] in any case is, once it is saved, opened with
    pdfplumber and never with PIL. *)
Theorem extract_text_from_pdf_branch_by_suffix w file_path :
  (if endswith (lower file_path) (lit ".pdf")
   then exists n,
          trace (extract_text_from_pdf w file_path) =
            pdfplumber_open file_path :: page_calls 0 n
   else trace (extract_text_from_pdf w file_path) = [Image_open file_path]) /\
  (forall f g text_input,
     uf_name f = uf_name g -> uf_buffer f = uf_buffer g ->
     accepted_type (uf_type f) -> accepted_type (uf_type g) ->
     process_button w text_input (Some f) = process_button w text_input (Some g)) /\
  (forall f text_input,
     uf_type f ∈ [lit "image/png"; lit "image/jpeg"] ->
     endswith (lower (uf_name f)) (lit ".pdf") = true ->
     fs_makedirs w (lit "uploads") = None ->
     fs_write w (os_path_join (lit "uploads") (uf_name f)) = None ->
     pdfplumber_open (os_path_join (lit "uploads") (uf_name f))
       ∈ trace (process_button w text_input (Some f)) /\
     forall p, Image_open p ∉ trace (process_button w text_input (Some f))).
Proof.
  split; [apply extract_text_from_pdf_trace|]. split.
  - intros f g text_input Hname Hbuffer Hf Hg.
    rewrite (process_button_accepted_type w text_input f Hf).
    rewrite (process_button_accepted_type w text_input g Hg).
    by rewrite Hname, Hbuffer.
  - intros f text_input Htype Hpdf Hdir Hwrite.
    assert (Haccepted : accepted_type (uf_type f)) by (by right).
    destruct (process_button_upload w text_input f Hdir Hwrite Haccepted)
      as (x & _ & ->).
    pose proof (extract_text_from_pdf_trace w
                  (os_path_join (lit "uploads") (uf_name f))) as Htrace.
    rewrite (endswith_lower_os_path_join _ _ _ Hpdf) in Htrace.
    destruct Htrace as [n ->]. unfold trace. cbn [fst]. split.
    + do 2 right. by left.
    + intros p. cbn [app]. rewrite !elem_of_cons, elem_of_app.
      intros [H|[H|[H|[H|H]]]]; try discriminate H.
      * unfold page_calls in H. apply list_elem_of_fmap in H as (i & H & _).
        discriminate H.
      * pose proof (response_events_no_open w x) as Hev.
        rewrite Forall_forall in Hev. by apply (Hev _ H).
Qed.

(** C10 at a PNG image uploaded as [photo.PDF]. *)
Lemma extract_text_from_pdf_branch_by_suffix_witness :
  trace (process_button upload_world [] (Some png_named_pdf)) =
    [ os_makedirs (lit "uploads");
      file_write (lit "uploads/photo.PDF") [137; 80; 78; 71];
      pdfplumber_open (lit "uploads/photo.PDF");
      st_subheader (lit "Extracted Text (Preview)");
      st_text_area (lit "Extracted Text")
        (lit "Error reading PDF: No /Root object! - Is this really a PDF?");
      st_spinner (lit "Processing with Gemini API...");
      genai_GenerativeModel MODEL_NAME;
      generate_content MODEL_NAME PROMPT
        (lit "Error reading PDF: No /Root object! - Is this really a PDF?");
      st_subheader (lit "AI Response:");
      st_json (JObject []) ] /\
  pdfplumber_open (lit "uploads/photo.PDF")
    ∈ trace (process_button upload_world [] (Some png_named_pdf)).
Proof.
  split; [reflexivity|].
  destruct (extract_text_from_pdf_branch_by_suffix upload_world
              (lit "uploads/photo.PDF")) as (_ & _ & H).
  apply (H png_named_pdf []); [|reflexivity|reflexivity|reflexivity].
  by left.
Defined.

(** ** Startup *)

(** C8, as amended.  When the API key is not set or is the empty string,
    a run of the script shows the error, calls [st.stop()] and makes no
    other call.  With a key that is not empty, startup configures the
    client with it and the run goes on to draw the page. *)
Theorem script_needs_api_key w text_input uploaded_file pressed :
  (environ w !! lit "GEMINI_API_KEY" = None \/
   environ w !! lit "GEMINI_API_KEY" = Some [] ->
   script w text_input uploaded_file pressed =
     ([st_error API_KEY_MISSING; st_stop], Stopped)) /\
  (forall key,
     environ w !! lit "GEMINI_API_KEY" = Some key -> key <> [] ->
     startup w = ([genai_configure key], Return tt) /\
     result (script w text_input uploaded_file pressed) <> Stopped /\
     exists rest,
       trace (script w text_input uploaded_file pressed) =
         genai_configure key
           :: st_set_page_config (lit "Government Document Processor") (lit "wide")
           :: rest).
Proof.
  split.
  - intros Hkey. unfold script. rewrite startup_eq.
    by destruct Hkey as [-> | ->].
  - intros key Hkey Hne. rewrite script_eq, startup_eq, Hkey.
    destruct key as [|c key]; [done|]. split; [done|]. cbv zeta.
    pose proof (process_button_not_stopped w text_input uploaded_file) as Hb.
    unfold trace, result in *. cbn [fst snd]. split.
    + destruct pressed; [|done].
      by destruct (process_button w text_input uploaded_file) as [t [[]|e|]].
    + by eexists.
Qed.

(** C8 without a key, and with the key [k]. *)
Lemma script_needs_api_key_witness :
  script no_key_world (lit "hello") None true =
    ([st_error API_KEY_MISSING; st_stop], Stopped) /\
  startup upload_world = ([genai_configure (lit "k")], Return tt).
Proof.
  split.
  - destruct (script_needs_api_key no_key_world (lit "hello") None true) as [H _].
    apply H. by left.
  - destruct (script_needs_api_key upload_world [] None false) as [_ H].
    by destruct (H (lit "k")) as [-> _].
Defined.

(** C8 as it is stated fails: here the variable is present, set to the
    empty string, and the run stops all the same. *)
Lemma script_stops_on_empty_api_key :
  environ empty_key_world !! lit "GEMINI_API_KEY" = Some [] /\
  script empty_key_world (lit "hello") None true =
    ([st_error API_KEY_MISSING; st_stop], Stopped).
Proof. split; reflexivity. Qed.

(** ** The prompt *)

(** C6, as amended.  Every request carries the prompt.  The prompt has
    twelve document-type rules, under the twelve names below, each with
    the fields to extract; and six compliance rules: five give an
    outcome on their own line, and the sixth, for a text that is no
    document, goes on over lines that set [document_type] to [text] and
    [compliance_status] to [N/A]. *)
Theorem PROMPT_enumerates :
  (forall w extracted_text,
     trace (extract_json_from_text w extracted_text) =
       [genai_GenerativeModel MODEL_NAME;
        generate_content MODEL_NAME PROMPT extracted_text]) /\
  length (document_rules PROMPT) = 12%nat /\
  document_rules PROMPT =
    [ Some (lit "Aadhaar Card",
            lit "name, dob, gender, aadhaar_number, Address.");
      Some (lit "PAN Card",
            lit "name, father's name, dob, Pan number, signature.");
      Some (lit "Passport",
            lit "name, passport_number, dob, nationality, issue_date, expiry_date.");
      Some (lit "Driving License",
            lit "name, license_number, dob, issue_date, validity.");
      Some (lit "Marksheet/Examination Certificate",
            lit "Roll No, exam_type, certificate_number, Candidate Name , Mother Name, Father Name, DOB, School/College Name, Exam Year, Subjects [{Subject, Max Marks, Total Marks, Grade}], Result, Date of Issue, Place, Verification Website.");
      Some (lit "Invoice",
            lit "invoice_number, date, seller_name, buyer_name, items, total_amount, tax_amount.");
      Some (lit "Contract",
            lit "contract_id, parties_involved, start_date, end_date, key_terms.");
      Some (lit "Voter ID",
            lit "name, father_name, dob, gender, voter_id_number, address.");
      Some (lit "Birth Certificate",
            lit "child_name, father_name, mother_name, dob, place_of_birth, registration_number.");
      Some (lit "Property Registration",
            lit "owner_name, property_address, registration_number, date_of_registration, registrar_office.");
      Some (lit "Tax Return",
            lit "taxpayer_name, pan_number, assessment_year, income, tax_paid, refund_status.");
      Some (lit "Income Certificate",
            lit "Certificate_number, Applicant_name, Father's_name, Address, Annual_income, Issue_date, Validity, Issuing_authority.") ] /\
  rule_outcome <$> compliance_rules PROMPT =
    [ Some (lit "compliant");
      Some (lit "Data extracted successfully for regulatory review.");
      Some (lit "Partial data extracted " ++ EM_DASH ++ lit " further verification required.");
      Some (lit "Document type not identified " ++ EM_DASH ++ lit " manual review required.");
      Some (lit "Data format issue " ++ EM_DASH ++ lit " needs correction.");
      None ] /\
  compliance_assignments PROMPT =
    [ (lit "document_type", lit "text"); (lit "compliance_status", lit "N/A") ].
Proof.
  split.
  { intros w extracted_text. by rewrite extract_json_from_text_eq. }
  split; [by vm_compute|]. split; [by vm_compute|]. split; by vm_compute.
Qed.

(** C6 as it is stated fails: the document-type rules of the prompt are
    not eleven. *)
Lemma PROMPT_not_eleven :
  length (document_rules PROMPT) <> 11%nat.
Proof. by vm_compute. Qed.

(** * Further properties *)

(** X1.  The error object survives printing and reading: the text
    [json.dumps] prints denotes the [dict] it was printed from, message
    included, when the message holds no surrogate code point; and
    [json.loads] gives that [dict] back wherever the interpreter can
    enter three nested objects. *)
Theorem json_loads_dumps_api_error e :
  Forall scalar_value (exn_str e) ->
  json_decode (json_dumps (api_error e)) = Some (api_error e) /\
  forall w,
    3 <= recursion_limit w ->
    json_loads w (json_dumps (api_error e)) = ([], Return (api_error e)).
Proof.
  intros Hmsg.
  assert (H : json_decode (json_dumps (api_error e)) = Some (api_error e)).
  { rewrite json_dumps_api_error. unfold json_decode.
    rewrite lex_run_app, lex_api_error_head. cbn [mbind option_bind].
    rewrite lex_run_app, lex_encode_scalars by done.
    cbn [mbind option_bind].
    change (DQ ++ api_error_tail) with (34 :: api_error_tail).
    cbn [lex_run lex_step]. change (34 =? 34) with true.
    cbn [mbind option_bind]. rewrite lex_api_error_tail.
    cbn [fmap option_fmap option_map mbind option_bind app flush].
    apply parse_api_error_tokens. }
  split; [exact H|]. intros w Hdepth. unfold json_loads.
  by rewrite json_loads_value_api_error, H.
Qed.

(** X1 at a message with a quote, a newline and characters outside
    ASCII. *)
Lemma json_loads_dumps_api_error_witness :
  Forall scalar_value (exn_str quota_error) /\
  json_decode (json_dumps (api_error quota_error)) = Some (api_error quota_error) /\
  json_loads upload_world (json_dumps (api_error quota_error)) =
    ([], Return (api_error quota_error)).
Proof.
  assert (H : Forall scalar_value (exn_str quota_error)).
  { apply Forall_forall. intros c Hc. unfold scalar_value.
    vm_compute in Hc. repeat (apply elem_of_cons in Hc as [->|Hc]; [lia|]).
    by apply elem_of_nil in Hc. }
  split; [exact H|].
  destruct (json_loads_dumps_api_error quota_error H) as [Hdecode Hloads].
  split; [exact Hdecode|]. by apply Hloads.
Defined.



(** ** Further lemmas and properties *)

Section stripping.
Implicit Types (s : str) (c : N).

Lemma lstrip_head_nonspace s c s' : lstrip s = c :: s' -> isspace c = false.
Proof.
  induction s as [|a s IH]; [done|]. simpl.
  destruct (isspace a) eqn:Ha; [done|]. by intros [= <- _].
Qed.

Lemma lstrip_lstrip s : lstrip (lstrip s) = lstrip s.
Proof.
  destruct (lstrip s) as [|c s'] eqn:E; [done|].
  apply (lstrip_head (c :: s') c); [done|]. by eapply lstrip_head_nonspace.
Qed.

Lemma rstrip_rstrip s : rstrip (rstrip s) = rstrip s.
Proof. unfold rstrip. by rewrite reverse_involutive, lstrip_lstrip. Qed.

Lemma rstrip_cons_nonspace c s :
  isspace c = false -> exists s', rstrip (c :: s) = c :: s'.
Proof.
  intros Hc. unfold rstrip. rewrite reverse_cons.
  destruct (lstrip_snoc (reverse s) c) as [-> | [_ ->]].
  - rewrite reverse_snoc. by eexists.
  - simpl. rewrite Hc. by exists [].
Qed.

(** What [strip] returns neither starts nor ends with white space. *)
Lemma strip_ends s c :
  (head (strip s) = Some c -> isspace c = false) /\
  (last (strip s) = Some c -> isspace c = false).
Proof.
  unfold strip. split.
  - destruct (lstrip s) as [|a s'] eqn:E; [done|].
    pose proof (lstrip_head_nonspace _ _ _ E) as Ha.
    destruct (rstrip_cons_nonspace a s' Ha) as [s'' ->]. by intros [= <-].
  - unfold rstrip. rewrite last_reverse.
    destruct (lstrip (reverse (lstrip s))) as [|a s'] eqn:E; [done|].
    intros [= <-]. by eapply lstrip_head_nonspace.
Qed.

Lemma strip_strip s : strip (strip s) = strip s.
Proof.
  unfold strip at 2 3. destruct (lstrip s) as [|c s'] eqn:E; [done|].
  pose proof (lstrip_head_nonspace _ _ _ E) as Hc.
  destruct (rstrip_cons_nonspace c s' Hc) as [s'' Hs]. rewrite Hs.
  unfold strip. rewrite (lstrip_head (c :: s'') c) by done.
  by rewrite <- Hs, rstrip_rstrip.
Qed.

(** A text that starts with a character that is no white space keeps it:
    its [strip] is not empty. *)
Lemma truthy_strip_cons c s : isspace c = false -> truthy (strip (c :: s)) = true.
Proof.
  intros Hc. unfold strip. rewrite (lstrip_head (c :: s) c) by done.
  by destruct (rstrip_cons_nonspace c s Hc) as [s' ->].
Qed.

End stripping.

Lemma for_pages_no_raise pages i text :
  first_raise pages = None ->
  for_pages i pages text =
    (page_calls i (length pages),
     Return (text ++ concat ((fun t => t ++ NL) <$> (page_line <$> pages)))).
Proof.
  revert i text. induction pages as [|page pages IH]; intros i text Hno.
  - simpl. by rewrite app_nil_r.
  - rewrite for_pages_cons. unfold call_extract_text, answer.
    simpl in Hno. rewrite (fmap_cons page_line). unfold page_line at 1.
    destruct (extract_text page) as [e|[t|]]; [done| |];
      rewrite bind_Return; [destruct (truthy t)| ]; rewrite IH by done;
      unfold trace, result, page_calls; simpl; by rewrite <- app_assoc.
Qed.

Lemma for_pages_first_raise pages e :
  first_raise pages = Some e ->
  exists k page,
    pages !! k = Some page /\ extract_text page = inl e /\
    first_raise (take k pages) = None /\
    forall i text, for_pages i pages text = (page_calls i (S k), Raise e).
Proof.
  induction pages as [|page pages IH]; [done|]. cbn [first_raise].
  destruct (extract_text page) as [e'|page_text] eqn:Hpage.
  - intros [= ->]. exists 0%nat, page. split; [done|]. split; [done|]. split; [done|].
    intros i text. rewrite for_pages_cons. unfold call_extract_text, answer.
    by rewrite Hpage, bind_Raise.
  - intros Hrest. destruct (IH Hrest) as (k & page' & Hk & He & Hbefore & Hloop).
    exists (S k), page'. split; [done|]. split; [done|]. split.
    { cbn [take first_raise]. by rewrite Hpage. }
    intros i text. rewrite for_pages_cons. unfold call_extract_text, answer.
    rewrite Hpage, bind_Return.
    destruct page_text as [t|]; [destruct (truthy t)|]; rewrite Hloop; done.
Qed.

(** X4.  For a PDF that opens and whose pages are all read without an
    exception, every page is read once, in order, and the text returned
    is the page lines joined by newlines and stripped, where the line of
    a page is its text, or the scanned-page line when it has none. *)
Theorem extract_text_from_pdf_pages w file_path pages :
  endswith (lower file_path) (lit ".pdf") = true ->
  pdf_pages w file_path = inr pages ->
  first_raise pages = None ->
  extract_text_from_pdf w file_path =
    (pdfplumber_open file_path :: page_calls 0 (length pages),
     Return (strip (join NL (page_line <$> pages)))).
Proof.
  intros Hpdf Hopen Hno.
  rewrite (extract_text_from_pdf_opened w file_path pages) by done.
  rewrite for_pages_no_raise by done. mstep.
  by rewrite app_nil_l, strip_concat_newline.
Qed.

Lemma extract_text_from_pdf_pages_witness :
  endswith (lower (lit "form.pdf")) (lit ".pdf") = true /\
  pdf_pages mixed_world (lit "form.pdf") = inr mixed_pages /\
  first_raise mixed_pages = None /\
  extract_text_from_pdf mixed_world (lit "form.pdf") =
    ([pdfplumber_open (lit "form.pdf");
      page_extract_text 0; page_extract_text 1; page_extract_text 2],
     Return (lit "Name: Asha" ++ NL ++ SCANNED_PAGE ++ NL ++ lit "Signed.")).
Proof.
  split; [reflexivity|]. split; [reflexivity|]. split; [reflexivity|].
  rewrite (extract_text_from_pdf_pages mixed_world (lit "form.pdf") mixed_pages);
    reflexivity.
Defined.

(** X5.  When reading a page raises, the pages after it are not read,
    and the text returned is the error line alone: what the pages before
    it gave is dropped. *)
Theorem extract_text_from_pdf_stops_at_error w file_path pages e :
  endswith (lower file_path) (lit ".pdf") = true ->
  pdf_pages w file_path = inr pages ->
  first_raise pages = Some e ->
  exists k page,
    pages !! k = Some page /\ extract_text page = inl e /\
    first_raise (take k pages) = None /\
    extract_text_from_pdf w file_path =
      (pdfplumber_open file_path :: page_calls 0 (S k),
       Return (strip (lit "Error reading PDF: " ++ exn_str e))).
Proof.
  intros Hpdf Hopen Hraise.
  destruct (for_pages_first_raise pages e Hraise)
    as (k & page & Hk & He & Hbefore & Hloop).
  exists k, page. split; [done|]. split; [done|]. split; [done|].
  rewrite (extract_text_from_pdf_opened w file_path pages) by done.
  by rewrite Hloop.
Qed.

Lemma extract_text_from_pdf_stops_at_error_witness :
  first_raise [text_page (lit "page one"); broken_page (Exception (lit "bad xref "))]
    = Some (Exception (lit "bad xref ")) /\
  exists k page,
    [text_page (lit "page one"); broken_page (Exception (lit "bad xref "))] !! k
      = Some page /\
    extract_text page = inl (Exception (lit "bad xref ")) /\
    first_raise
      (take k [text_page (lit "page one"); broken_page (Exception (lit "bad xref "))])
      = None /\
    extract_text_from_pdf scans_world (lit "torn.pdf") =
      (pdfplumber_open (lit "torn.pdf") :: page_calls 0 (S k),
       Return (strip (lit "Error reading PDF: " ++ lit "bad xref "))).
Proof.
  split; [reflexivity|].
  apply (extract_text_from_pdf_stops_at_error scans_world (lit "torn.pdf")
           [text_page (lit "page one"); broken_page (Exception (lit "bad xref "))]
           (Exception (lit "bad xref "))); reflexivity.
Defined.

(** X6.  The text [extract_text_from_pdf] returns is its own [strip]:
    it neither starts nor ends with white space. *)
Theorem extract_text_from_pdf_stripped w file_path :
  exists text,
    result (extract_text_from_pdf w file_path) = Return text /\
    strip text = text /\
    (forall c, head text = Some c -> isspace c = false) /\
    (forall c, last text = Some c -> isspace c = false).
Proof.
  assert (H : exists x, result (extract_text_from_pdf w file_path) = Return (strip x)).
  { destruct (endswith (lower file_path) (lit ".pdf")) eqn:Hpdf.
    - destruct (pdf_pages w file_path) as [e|pages] eqn:Hopen.
      + rewrite (extract_text_from_pdf_not_opened w file_path e) by done. by eexists.
      + rewrite (extract_text_from_pdf_opened w file_path pages) by done.
        destruct (for_pages_outcome pages 0 []) as [_ Hr].
        destruct (first_raise pages) as [e|].
        * rewrite Hr. by eexists.
        * destruct Hr as [text ->]. by eexists.
    - rewrite extract_text_from_pdf_image by done. by eexists. }
  destruct H as [x ->]. exists (strip x). split; [done|].
  split; [apply strip_strip|]. split; intros c; apply strip_ends.
Qed.

(** The button with an accepted upload that can be saved, once the
    extraction's answer is known. *)
Lemma process_button_extracted w text_input f x :
  accepted_type (uf_type f) ->
  fs_makedirs w (lit "uploads") = None ->
  fs_write w (os_path_join (lit "uploads") (uf_name f)) = None ->
  result (extract_text_from_pdf w (os_path_join (lit "uploads") (uf_name f)))
    = Return x ->
  process_button w text_input (Some f) =
    (os_makedirs (lit "uploads")
       :: file_write (os_path_join (lit "uploads") (uf_name f)) (uf_buffer f)
       :: trace (extract_text_from_pdf w (os_path_join (lit "uploads") (uf_name f)))
       ++ response_events w x,
     Return tt).
Proof.
  intros Htype Hdir Hwrite Hx.
  destruct (process_button_upload w text_input f Hdir Hwrite Htype) as (y & Hy & ->).
  rewrite Hx in Hy. by injection Hy as ->.
Qed.

Lemma truthy_error_line (line : string) m :
  truthy (strip (lit ("E" ++ line) ++ m)) = true.
Proof. by apply (truthy_strip_cons 69). Qed.

(** X7.  An error of the extraction is not shown as an error: for an
    accepted upload that is saved (the directory made, the file
    written), the error line is a text like any other, and the button
    sends it to the hosted model as the text of the document. *)
Theorem process_button_sends_error_text w text_input f e :
  accepted_type (uf_type f) ->
  fs_makedirs w (lit "uploads") = None ->
  fs_write w (os_path_join (lit "uploads") (uf_name f)) = None ->
  (endswith (lower (uf_name f)) (lit ".pdf") = true ->
   pdf_pages w (os_path_join (lit "uploads") (uf_name f)) = inl e ->
   generate_content MODEL_NAME PROMPT (strip (lit "Error reading PDF: " ++ exn_str e))
     ∈ trace (process_button w text_input (Some f))) /\
  (endswith (lower (os_path_join (lit "uploads") (uf_name f))) (lit ".pdf") = false ->
   image_error w (os_path_join (lit "uploads") (uf_name f)) = Some e ->
   generate_content MODEL_NAME PROMPT (strip (lit "Error reading image: " ++ exn_str e))
     ∈ trace (process_button w text_input (Some f))).
Proof.
  intros Htype Hdir Hwrite. split.
  - intros Hpdf Hopen.
    pose proof (endswith_lower_os_path_join (lit "uploads") _ _ Hpdf) as Hpath.
    rewrite (process_button_extracted w text_input f
               (strip (lit "Error reading PDF: " ++ exn_str e))); [|done|done|done|].
    + unfold trace at 1. cbn [fst]. do 2 right. apply elem_of_app. right.
      unfold response_events. rewrite (truthy_error_line "rror reading PDF: ").
      do 4 right. by left.
    + by rewrite (extract_text_from_pdf_not_opened _ _ e).
  - intros Hpath Himage.
    rewrite (process_button_extracted w text_input f
               (strip (lit "Error reading image: " ++ exn_str e))); [|done|done|done|].
    + unfold trace at 1. cbn [fst]. do 2 right. apply elem_of_app. right.
      unfold response_events. rewrite (truthy_error_line "rror reading image: ").
      do 4 right. by left.
    + rewrite extract_text_from_pdf_image by done. by rewrite Himage.
Qed.

Lemma process_button_sends_error_text_witness :
  generate_content MODEL_NAME PROMPT
    (lit "Error reading PDF: No /Root object! - Is this really a PDF?")
    ∈ trace (process_button mixed_world [] (Some broken_pdf)).
Proof.
  destruct (process_button_sends_error_text mixed_world [] broken_pdf
              (Exception (lit "No /Root object! - Is this really a PDF?")))
    as [H _]; [by left | reflexivity | reflexivity |].
  apply H; reflexivity.
Defined.



(** How a press of the button ends. *)
Lemma process_button_result w text_input uploaded_file :
  result (process_button w text_input uploaded_file) =
    match uploaded_file with
    | Some f =>
        match fs_makedirs w (lit "uploads") with
        | Some e => Raise e
        | None =>
            match fs_write w (os_path_join (lit "uploads") (uf_name f)) with
            | Some e => Raise e
            | None => Return tt
            end
        end
    | None => Return tt
    end.
Proof.
  destruct uploaded_file as [f|]; [|by rewrite process_button_text].
  destruct (fs_makedirs w (lit "uploads")) as [e|] eqn:Hdir.
  { by rewrite (process_button_makedirs_fails w text_input f e). }
  destruct (fs_write w (os_path_join (lit "uploads") (uf_name f))) as [e|] eqn:Hwrite.
  - by rewrite (process_button_write_fails w text_input f e).
  - destruct (decide (accepted_type (uf_type f))) as [Htype|Htype].
    + by destruct (process_button_upload w text_input f Hdir Hwrite Htype)
        as (x & _ & ->).
    + by rewrite process_button_not_accepted.
Qed.

(** X9.  A press of the button raises exactly when a file is uploaded
    and saving it raises: the directory [uploads] cannot be made, or it
    is made and the file cannot be written.  The exception is the one of
    that call, and the button makes no call after it. *)
Theorem process_button_raises_iff w text_input uploaded_file e :
  (result (process_button w text_input uploaded_file) = Raise e <->
   exists f, uploaded_file = Some f /\
     (fs_makedirs w (lit "uploads") = Some e \/
      fs_makedirs w (lit "uploads") = None /\
      fs_write w (os_path_join (lit "uploads") (uf_name f)) = Some e)) /\
  (forall f,
     uploaded_file = Some f ->
     (fs_makedirs w (lit "uploads") = Some e ->
      process_button w text_input uploaded_file =
        ([os_makedirs (lit "uploads")], Raise e)) /\
     (fs_makedirs w (lit "uploads") = None ->
      fs_write w (os_path_join (lit "uploads") (uf_name f)) = Some e ->
      process_button w text_input uploaded_file =
        ([os_makedirs (lit "uploads");
          file_write (os_path_join (lit "uploads") (uf_name f)) (uf_buffer f)],
         Raise e))).
Proof.
  split.
  - rewrite process_button_result. split.
    + destruct uploaded_file as [f|]; [|done].
      destruct (fs_makedirs w (lit "uploads")) as [e'|] eqn:Hdir.
      { intros [= ->]. exists f. split; [done|]. by left. }
      destruct (fs_write w (os_path_join (lit "uploads") (uf_name f)))
        as [e'|] eqn:Hw; [|done].
      intros [= ->]. exists f. split; [done|]. by right.
    + intros (f & -> & [-> | [-> ->]]); done.
  - intros f ->. split.
    + by apply process_button_makedirs_fails.
    + by apply process_button_write_fails.
Qed.

(** X9 on a file system that is read-only, and on a disk that is
    full. *)
Lemma process_button_raises_iff_witness :
  process_button read_only_world (lit "typed") (Some card_pdf) =
    ([os_makedirs (lit "uploads")], Raise read_only) /\
  process_button full_disk_world (lit "typed") (Some card_pdf) =
    ([os_makedirs (lit "uploads");
      file_write (lit "uploads/card.pdf") [37; 80; 68; 70]],
     Raise disk_full).
Proof.
  split.
  - destruct (process_button_raises_iff read_only_world (lit "typed")
                (Some card_pdf) read_only) as [_ H].
    destruct (H card_pdf eq_refl) as [-> _]; reflexivity.
  - destruct (process_button_raises_iff full_disk_world (lit "typed")
                (Some card_pdf) disk_full) as [_ H].
    destruct (H card_pdf eq_refl) as [_ ->]; reflexivity.
Defined.

(** X10.  An upload whose MIME type is none of the three accepted ones
    is still saved, when the directory can be made and the file
    written; then the warning is shown and nothing is extracted or sent,
    whatever is typed in the text box. *)
Theorem process_button_other_type w text_input f :
  fs_makedirs w (lit "uploads") = None ->
  fs_write w (os_path_join (lit "uploads") (uf_name f)) = None ->
  ~ accepted_type (uf_type f) ->
  process_button w text_input (Some f) =
    ([os_makedirs (lit "uploads");
      file_write (os_path_join (lit "uploads") (uf_name f)) (uf_buffer f);
      st_warning (lit "Could not extract any text from this file.")],
     Return tt).
Proof. apply process_button_not_accepted. Qed.

Lemma process_button_other_type_witness :
  ~ accepted_type (uf_type gif_upload) /\
  process_button mixed_world (lit "Name: Asha") (Some gif_upload) =
    ([os_makedirs (lit "uploads");
      file_write (lit "uploads/chart.gif") [71; 73; 70];
      st_warning (lit "Could not extract any text from this file.")],
     Return tt).
Proof.
  assert (H : ~ accepted_type (uf_type gif_upload)).
  { unfold accepted_type. rewrite !elem_of_cons, elem_of_nil.
    intros [H|[H|[H|[]]]]; discriminate H. }
  split; [exact H|].
  by rewrite (process_button_other_type mixed_world (lit "Name: Asha") gif_upload).
Defined.

(** X11.  When the extraction of an accepted upload that is saved gives
    the empty text, as for a PDF of no page, the button shows the
    warning and makes no remote call. *)
Theorem process_button_empty_extraction w text_input f :
  accepted_type (uf_type f) ->
  fs_makedirs w (lit "uploads") = None ->
  fs_write w (os_path_join (lit "uploads") (uf_name f)) = None ->
  result (extract_text_from_pdf w (os_path_join (lit "uploads") (uf_name f)))
    = Return [] ->
  process_button w text_input (Some f) =
    (os_makedirs (lit "uploads")
       :: file_write (os_path_join (lit "uploads") (uf_name f)) (uf_buffer f)
       :: trace (extract_text_from_pdf w (os_path_join (lit "uploads") (uf_name f)))
       ++ [st_warning (lit "Could not extract any text from this file.")],
     Return tt).
Proof.
  intros Htype Hdir Hwrite Hempty.
  by rewrite (process_button_extracted w text_input f []).
Qed.

Lemma process_button_empty_extraction_witness :
  pdf_pages mixed_world (lit "uploads/empty.pdf") = inr [] /\
  process_button mixed_world (lit "Name: Asha") (Some empty_pdf) =
    ([os_makedirs (lit "uploads");
      file_write (lit "uploads/empty.pdf") [37; 80; 68; 70];
      pdfplumber_open (lit "uploads/empty.pdf");
      st_warning (lit "Could not extract any text from this file.")],
     Return tt).
Proof.
  split; [reflexivity|].
  rewrite (process_button_empty_extraction mixed_world (lit "Name: Asha") empty_pdf);
    [reflexivity | by left | reflexivity | reflexivity | reflexivity].
Defined.

Lemma remote_calls_app t1 t2 :
  remote_calls (t1 ++ t2) = (remote_calls t1 + remote_calls t2)%nat.
Proof. unfold remote_calls. by rewrite List.filter_app, length_app. Qed.

Lemma remote_calls_none t :
  Forall (fun e => ~ remote_call e) t -> remote_calls t = 0%nat.
Proof.
  unfold remote_calls. induction 1 as [|e t He _ IH]; [done|]. simpl.
  destruct e; try done; by destruct He.
Qed.

Lemma extraction_no_remote_call t :
  Forall extraction_event t -> Forall (fun e => ~ remote_call e) t.
Proof.
  intros H. eapply Forall_impl; [exact H|]. intros e He Hr. by destruct e.
Qed.

Lemma remote_calls_response_events w x :
  remote_calls (response_events w x) = if truthy x then 1%nat else 0%nat.
Proof.
  unfold response_events. destruct (truthy x); [|done].
  unfold remote_calls. cbn [List.filter is_remote_call].
  by destruct (json_loads_value w (model_reply w x)).
Qed.

Lemma response_events_call w y m p x :
  generate_content m p x ∈ response_events w y ->
  m = MODEL_NAME /\ p = PROMPT /\ x = y /\ truthy y = true /\
  st_text_area (lit "Extracted Text") y ∈ response_events w y.
Proof.
  unfold response_events. destruct (truthy y).
  - rewrite !elem_of_cons, elem_of_nil.
    intros [H|[H|[H|[H|[H|[H|[H|[]]]]]]]]; try discriminate H.
    + injection H as -> -> ->. repeat split. right. by left.
    + destruct (json_loads_value w (model_reply w y)); discriminate H.
  - rewrite list_elem_of_singleton. discriminate.
Qed.

Lemma page_head_no_remote_call : Forall (fun e => ~ remote_call e) page_head.
Proof. unfold page_head. repeat (constructor; [by intros []|]). constructor. Qed.

Lemma page_foot_no_remote_call : Forall (fun e => ~ remote_call e) page_foot.
Proof. unfold page_foot. repeat (constructor; [by intros []|]). constructor. Qed.

(** The calls of a press of the button: what comes before the display
    makes no remote call, and the display is that of one extracted
    text, or is missing when saving the upload raised. *)
Lemma process_button_trace w text_input uploaded_file :
  exists before display,
    trace (process_button w text_input uploaded_file) = before ++ display /\
    Forall (fun e => ~ remote_call e) before /\
    (display = [] \/ exists y, display = response_events w y).
Proof.
  destruct uploaded_file as [f|].
  - destruct (process_button_upload_cases w text_input f)
      as [[e ->] | [[e ->] | [-> | (x & _ & _ & _ & _ & ->)]]];
      unfold trace; cbn [fst].
    + eexists _, []. rewrite app_nil_r. split; [done|]. split; [|by left].
      repeat (constructor; [by intros []|]). constructor.
    + eexists _, []. rewrite app_nil_r. split; [done|]. split; [|by left].
      repeat (constructor; [by intros []|]). constructor.
    + eexists _, _. split; [done|]. split; [|right; by exists []].
      repeat (constructor; [by intros []|]). constructor.
    + eexists _, _. split; [by rewrite app_assoc|]. split; [|right; by exists x].
      apply Forall_app. split.
      * repeat (constructor; [by intros []|]). constructor.
      * apply extraction_no_remote_call, extract_text_from_pdf_events.
  - rewrite process_button_text. exists [], (response_events w (strip text_input)).
    split; [done|]. split; [constructor|]. right. by eexists.
Qed.

(** The calls of a run: the button's calls, when it is pressed and
    startup went through, are the only ones that can be remote. *)
Lemma script_trace w text_input uploaded_file pressed :
  exists before middle after,
    trace (script w text_input uploaded_file pressed) = before ++ middle ++ after /\
    Forall (fun e => ~ remote_call e) before /\
    Forall (fun e => ~ remote_call e) after /\
    (middle = [] \/
     pressed = true /\ middle = trace (process_button w text_input uploaded_file)).
Proof.
  rewrite script_eq, startup_eq.
  destruct (environ w !! lit "GEMINI_API_KEY") as [[|c key]|].
  - exists [st_error API_KEY_MISSING; st_stop], [], [].
    split; [done|]. split; [|split; [constructor|by left]].
    repeat (constructor; [by intros []|]). constructor.
  - cbv zeta. exists (genai_configure (c :: key) :: page_head).
    destruct pressed.
    + exists (trace (process_button w text_input uploaded_file)).
      exists (match result (process_button w text_input uploaded_file) with
              | Return _ => page_foot | _ => [] end).
      split; [|split; [|split; [|by right]]].
      * unfold trace at 1. cbn [fst app].
        destruct (result (process_button w text_input uploaded_file));
          by rewrite ?app_nil_r.
      * constructor; [by intros []|apply page_head_no_remote_call].
      * destruct (result (process_button w text_input uploaded_file));
          [apply page_foot_no_remote_call|constructor|constructor].
    + exists [], page_foot. split; [done|].
      split; [|split; [apply page_foot_no_remote_call|by left]].
      constructor; [by intros []|apply page_head_no_remote_call].
  - exists [st_error API_KEY_MISSING; st_stop], [], [].
    split; [done|]. split; [|split; [constructor|by left]].
    repeat (constructor; [by intros []|]). constructor.
Qed.

Lemma not_remote_call_elem t m p x :
  Forall (fun e => ~ remote_call e) t -> generate_content m p x ∉ t.
Proof. rewrite Forall_forall. intros H Hin. by apply (H _ Hin). Qed.

(** X12.  Every call of the hosted model in a run of the script comes
    from a press of the button, names the fixed model and the fixed
    prompt, carries a text that is not empty, and that text is in the
    preview shown on the page. *)
Theorem script_remote_call_is_fixed w text_input uploaded_file pressed m p x :
  generate_content m p x ∈ trace (script w text_input uploaded_file pressed) ->
  pressed = true /\ m = MODEL_NAME /\ p = PROMPT /\ truthy x = true /\
  st_text_area (lit "Extracted Text") x
    ∈ trace (script w text_input uploaded_file pressed).
Proof.
  destruct (script_trace w text_input uploaded_file pressed)
    as (before & middle & after & -> & Hbefore & Hafter & Hmiddle).
  rewrite !elem_of_app. intros [H|[H|H]].
  - by apply not_remote_call_elem in H.
  - destruct Hmiddle as [-> | [-> ->]]; [by apply elem_of_nil in H|].
    destruct (process_button_trace w text_input uploaded_file)
      as (before' & display & Htrace & Hbefore' & Hdisplay).
    rewrite Htrace in *. apply elem_of_app in H as [H|H].
    + by apply not_remote_call_elem in H.
    + destruct Hdisplay as [-> | [y ->]]; [by apply elem_of_nil in H|].
      apply response_events_call in H as (-> & -> & -> & Hy & Hpreview).
      repeat split; try done. right. left. apply elem_of_app. by right.
  - by apply not_remote_call_elem in H.
Qed.

Lemma script_remote_call_is_fixed_witness :
  generate_content MODEL_NAME PROMPT (lit "PAN ABCDE1234F")
    ∈ trace (script upload_world (lit " PAN ABCDE1234F ") None true) /\
  st_text_area (lit "Extracted Text") (lit "PAN ABCDE1234F")
    ∈ trace (script upload_world (lit " PAN ABCDE1234F ") None true).
Proof.
  assert (H : generate_content MODEL_NAME PROMPT (lit "PAN ABCDE1234F")
                ∈ trace (script upload_world (lit " PAN ABCDE1234F ") None true)).
  { vm_compute. do 11 right. by left. }
  split; [exact H|].
  by destruct (script_remote_call_is_fixed _ _ _ _ _ _ _ H) as (_ & _ & _ & _ & ?).
Defined.

(** X13.  A run of the script calls the hosted model at most once, and
    not at all when the button is not pressed. *)
Theorem script_at_most_one_remote_call w text_input uploaded_file pressed :
  (remote_calls (trace (script w text_input uploaded_file pressed)) <= 1)%nat /\
  (pressed = false ->
   remote_calls (trace (script w text_input uploaded_file pressed)) = 0%nat).
Proof.
  destruct (script_trace w text_input uploaded_file pressed)
    as (before & middle & after & -> & Hbefore & Hafter & Hmiddle).
  rewrite !remote_calls_app, (remote_calls_none before), (remote_calls_none after)
    by done.
  destruct Hmiddle as [-> | [-> ->]]; [split; [|intros _]; simpl; lia|].
  split; [|done].
  destruct (process_button_trace w text_input uploaded_file)
    as (before' & display & -> & Hbefore' & Hdisplay).
  rewrite remote_calls_app, (remote_calls_none before') by done.
  destruct Hdisplay as [-> | [y ->]]; [simpl; lia|].
  rewrite remote_calls_response_events. destruct (truthy y); simpl; lia.
Qed.

(** X14.  Without a press of the button, a run with an API key only
    configures the client and draws the page and the sidebar: an
    uploaded file is not saved and nothing is extracted or sent. *)
Theorem script_not_pressed w text_input uploaded_file key :
  environ w !! lit "GEMINI_API_KEY" = Some key -> key <> [] ->
  script w text_input uploaded_file false =
    (genai_configure key :: page_head ++ page_foot, Return tt).
Proof.
  intros Hkey Hne. rewrite script_eq, startup_eq, Hkey.
  by destruct key as [|c key].
Qed.

Lemma script_not_pressed_witness :
  environ upload_world !! lit "GEMINI_API_KEY" = Some (lit "k") /\
  script upload_world (lit "Name: Asha") (Some card_pdf) false =
    (genai_configure (lit "k") :: page_head ++ page_foot, Return tt).
Proof.
  split; [reflexivity|].
  by apply (script_not_pressed upload_world (lit "Name: Asha") (Some card_pdf) (lit "k")).
Defined.

(** X15.  With an uploaded file the button first makes the directory
    [uploads].  When that raises the file is not written.  When it
    returns the next call writes the bytes of the file, under [uploads/]
    followed by its name, or at the name itself when the name is an
    absolute path. *)
Theorem process_button_saves_upload w text_input f :
  (forall e,
     fs_makedirs w (lit "uploads") = Some e ->
     trace (process_button w text_input (Some f)) = [os_makedirs (lit "uploads")]) /\
  (fs_makedirs w (lit "uploads") = None ->
   (startswith (uf_name f) (lit "/") = false ->
    exists rest,
      trace (process_button w text_input (Some f)) =
        os_makedirs (lit "uploads")
          :: file_write (lit "uploads/" ++ uf_name f) (uf_buffer f) :: rest) /\
   (startswith (uf_name f) (lit "/") = true ->
    exists rest,
      trace (process_button w text_input (Some f)) =
        os_makedirs (lit "uploads")
          :: file_write (uf_name f) (uf_buffer f) :: rest)).
Proof.
  split.
  { intros e Hdir. by rewrite (process_button_makedirs_fails w text_input f e). }
  intros Hdir.
  assert (H : exists rest,
    trace (process_button w text_input (Some f)) =
      os_makedirs (lit "uploads")
        :: file_write (os_path_join (lit "uploads") (uf_name f)) (uf_buffer f)
        :: rest).
  { destruct (fs_write w (os_path_join (lit "uploads") (uf_name f)))
      as [e|] eqn:Hwrite.
    { rewrite (process_button_write_fails w text_input f e) by done. by eexists. }
    destruct (decide (accepted_type (uf_type f))) as [Htype|Htype].
    - destruct (process_button_upload w text_input f Hdir Hwrite Htype)
        as (x & _ & ->). by eexists.
    - rewrite process_button_not_accepted by done. by eexists. }
  destruct H as [rest ->]. unfold os_path_join.
  split; intros ->; by exists rest.
Qed.

(** X15 at a PDF and at a file named by an absolute path, where both are
    written, and on a file system that is read-only. *)
Lemma process_button_saves_upload_witness :
  (exists rest,
     trace (process_button mixed_world [] (Some card_pdf)) =
       os_makedirs (lit "uploads")
         :: file_write (lit "uploads/card.pdf") [37; 80; 68; 70] :: rest) /\
  (exists rest,
     trace (process_button mixed_world [] (Some absolute_upload)) =
       os_makedirs (lit "uploads") :: file_write (lit "/etc/motd") [1] :: rest) /\
  trace (process_button read_only_world [] (Some card_pdf)) =
    [os_makedirs (lit "uploads")].
Proof.
  destruct (process_button_saves_upload mixed_world [] card_pdf) as [_ Hpdf].
  destruct (process_button_saves_upload mixed_world [] absolute_upload) as [_ Habs].
  destruct (process_button_saves_upload read_only_world [] card_pdf) as [Hro _].
  split; [|split].
  - by apply Hpdf.
  - by apply Habs.
  - by apply (Hro read_only).
Defined.

Lemma hex_digit_printable d : d < 16 -> printable (hex_digit d).
Proof.
  intros Hd. unfold hex_digit, printable. destruct (N.ltb_spec d 10); lia.
Qed.

Lemma hex4_printable n : Forall printable (hex4 n).
Proof.
  unfold hex4.
  repeat (constructor; [apply hex_digit_printable, N.mod_lt; lia|]). constructor.
Qed.

Lemma encode_char_printable c : Forall printable (encode_char c).
Proof.
  unfold encode_char.
  repeat (case_match; [repeat constructor; unfold printable; lia|]).
  destruct ((32 <=? c) && (c <=? 126)) eqn:Hprint.
  - apply andb_true_iff in Hprint as [Hlo%N.leb_le Hhi%N.leb_le].
    by repeat constructor.
  - destruct (c <? 65536); cbv zeta;
      repeat (apply Forall_app; split); try apply hex4_printable;
      repeat constructor; unfold printable; lia.
Qed.

Lemma encode_chars_printable s : Forall printable (flat_map encode_char s).
Proof.
  induction s as [|c s IH]; [constructor|]. cbn [flat_map].
  apply Forall_app. split; [apply encode_char_printable|done].
Qed.

Lemma Forall_printable_closed (s : str) :
  forallb (fun c => (32 <=? c) && (c <=? 126)) s = true -> Forall printable s.
Proof.
  rewrite forallb_forall, Forall_forall. intros H c Hc.
  apply list_elem_of_In, H, andb_true_iff in Hc as [?%N.leb_le ?%N.leb_le].
  by split.
Qed.

(** X16.  The text returned when the remote call raises holds
    printable ASCII characters only, whatever the message of the
    exception. *)
Theorem api_error_json_is_ascii e : Forall printable (json_dumps (api_error e)).
Proof.
  rewrite json_dumps_api_error.
  apply Forall_app. split; [by apply Forall_printable_closed|].
  apply Forall_app. split; [apply encode_chars_printable|].
  by apply Forall_printable_closed.
Qed.

Lemma strip_json_dumps_api_error e :
  strip (json_dumps (api_error e)) = json_dumps (api_error e).
Proof.
  rewrite json_dumps_api_error. apply (strip_trimmed _ 123 125); try done.
  by rewrite !last_app.
Qed.

(** X17.  [extract_json_from_text] never raises: it makes its two
    calls and returns a text, the stripped answer when the remote call
    answers; the text it returns has no white space at its ends. *)
Theorem extract_json_from_text_returns w extracted_text :
  exists s,
    extract_json_from_text w extracted_text =
      ([genai_GenerativeModel MODEL_NAME;
        generate_content MODEL_NAME PROMPT extracted_text], Return s) /\
    strip s = s /\
    (forall response_text,
       gemini w MODEL_NAME PROMPT extracted_text = inr response_text ->
       s = strip response_text).
Proof.
  rewrite extract_json_from_text_eq.
  destruct (gemini w MODEL_NAME PROMPT extracted_text) as [e|r].
  - eexists. split; [done|]. split; [apply strip_json_dumps_api_error|done].
  - eexists. split; [done|]. split; [apply strip_strip|]. by intros ? [= <-].
Qed.

(** X18.  When the remote call raises, the button still runs to its
    end, and what it displays is [st.json] of the error object, not raw
    text, wherever the interpreter can enter the three nested objects of
    the error text. *)
Theorem process_button_shows_api_error w text_input e :
  truthy (strip text_input) = true ->
  gemini w MODEL_NAME PROMPT (strip text_input) = inl e ->
  3 <= recursion_limit w ->
  exists m,
    process_button w text_input None =
      ([ st_subheader (lit "Extracted Text (Preview)");
         st_text_area (lit "Extracted Text") (strip text_input);
         st_spinner (lit "Processing with Gemini API...");
         genai_GenerativeModel MODEL_NAME;
         generate_content MODEL_NAME PROMPT (strip text_input);
         st_subheader (lit "AI Response:");
         st_json (api_error_read m) ], Return tt).
Proof.
  intros Htext Hcall Hdepth. rewrite process_button_text.
  unfold response_events, model_reply. rewrite Htext, Hcall.
  rewrite json_loads_value_api_error by done.
  destruct (json_decode_api_error e) as [m ->]. by exists m.
Qed.

Lemma process_button_shows_api_error_witness :
  truthy (strip (lit "Name: A. Kumar")) = true /\
  gemini outage_world MODEL_NAME PROMPT (strip (lit "Name: A. Kumar")) = inl outage /\
  3 <= recursion_limit outage_world /\
  exists m,
    process_button outage_world (lit "Name: A. Kumar") None =
      ([ st_subheader (lit "Extracted Text (Preview)");
         st_text_area (lit "Extracted Text") (strip (lit "Name: A. Kumar"));
         st_spinner (lit "Processing with Gemini API...");
         genai_GenerativeModel MODEL_NAME;
         generate_content MODEL_NAME PROMPT (strip (lit "Name: A. Kumar"));
         st_subheader (lit "AI Response:");
         st_json (api_error_read m) ], Return tt).
Proof.
  split; [reflexivity|]. split; [reflexivity|]. split; [by vm_compute|].
  apply (process_button_shows_api_error outage_world (lit "Name: A. Kumar") outage);
    [reflexivity | reflexivity | by vm_compute].
Defined.

(** A text whose first character can start no value is no JSON text. *)
Lemma json_decode_value_start c rest :
  value_start c = false -> json_decode (c :: rest) = None.
Proof.
  intros Hc. unfold json_decode. cbn [lex_run lex_step]. unfold start_step.
  unfold value_start in Hc.
  repeat match goal with
         | |- context [c =? ?k] => destruct (c =? k) eqn:?
         | |- context [is_digit c] => destruct (is_digit c) eqn:?
         end;
    cbn [orb] in *; try discriminate Hc; try done; cbn [mbind option_bind].
  1-4: by destruct (lex_run L_start rest).
  match goal with
  | H : (c =? 48) = true |- _ => apply N.eqb_eq in H; subst c
  end.
  by vm_compute in Hc.
Qed.

(** X19.  An answer that is empty, or whose first character can start
    no JSON value (the backtick of a code fence is one, a closing
    bracket another), is displayed as raw text. *)
Theorem show_response_not_a_value w c rest :
  value_start c = false ->
  show_response w (c :: rest) = ([st_text (c :: rest)], Return tt) /\
  show_response w [] = ([st_text []], Return tt).
Proof.
  intros Hc. rewrite !show_response_eq.
  rewrite (json_loads_value_not_json w (c :: rest))
    by by apply json_decode_value_start.
  by rewrite (json_loads_value_not_json w []).
Qed.

Lemma show_response_not_a_value_witness :
  value_start 96 = false /\
  show_response fenced_world fenced_reply = ([st_text fenced_reply], Return tt).
Proof.
  split; [reflexivity|].
  by destruct (show_response_not_a_value fenced_world 96 (tail fenced_reply))
    as [H _].
Defined.

(** X20.  [clear_memory] never raises: it runs the garbage collector,
    tries to import torch, empties the CUDA cache only when the import
    succeeded, and returns. *)
Theorem clear_memory_never_raises torch :
  snd (clear_memory torch) = Return tt /\
  fst (clear_memory torch) =
    gc_collect :: import_torch
      :: match torch_import torch with
         | Some _ => []
         | None => [torch_cuda_empty_cache]
         end.
Proof.
  unfold clear_memory, memory_step.
  by destruct (torch_import torch), (torch_empty_cache torch).
Qed.

(** X21.  When saving the upload raises, the run of the script ends
    with that exception right after the call that raised, the making of
    the directory or the write: the sidebar is not drawn. *)
Theorem script_write_error_ends_run w text_input f key e :
  environ w !! lit "GEMINI_API_KEY" = Some key -> key <> [] ->
  (fs_makedirs w (lit "uploads") = Some e ->
   script w text_input (Some f) true =
     (genai_configure key :: page_head ++ [os_makedirs (lit "uploads")],
      Raise e)) /\
  (fs_makedirs w (lit "uploads") = None ->
   fs_write w (os_path_join (lit "uploads") (uf_name f)) = Some e ->
   script w text_input (Some f) true =
     (genai_configure key :: page_head
        ++ [os_makedirs (lit "uploads");
            file_write (os_path_join (lit "uploads") (uf_name f)) (uf_buffer f)],
      Raise e)).
Proof.
  intros Hkey Hne. split.
  - intros Hdir.
    rewrite script_eq, startup_eq, Hkey, (process_button_makedirs_fails _ _ _ e)
      by done.
    by destruct key as [|c key].
  - intros Hdir Hwrite.
    rewrite script_eq, startup_eq, Hkey, (process_button_write_fails _ _ _ e)
      by done.
    by destruct key as [|c key].
Qed.

Lemma script_write_error_ends_run_witness :
  environ full_disk_world !! lit "GEMINI_API_KEY" = Some (lit "k") /\
  fs_write full_disk_world (os_path_join (lit "uploads") (uf_name card_pdf))
    = Some disk_full /\
  script full_disk_world (lit "typed") (Some card_pdf) true =
    (genai_configure (lit "k") :: page_head
       ++ [os_makedirs (lit "uploads");
           file_write (os_path_join (lit "uploads") (uf_name card_pdf))
             (uf_buffer card_pdf)],
     Raise disk_full).
Proof.
  split; [reflexivity|]. split; [reflexivity|].
  destruct (script_write_error_ends_run full_disk_world (lit "typed") card_pdf
              (lit "k") disk_full) as [_ H]; [reflexivity | done |].
  by apply H.
Defined.

(** ** Answers beyond the limits of the interpreter *)

Lemma lex_run_digits lexeme ds :
  Forall (fun c => is_digit c = true) ds ->
  lex_run (L_num N_int lexeme) ds = Some [T_value (JNumber (lexeme ++ ds))].
Proof.
  intros Hds. revert lexeme.
  induction Hds as [|c ds Hc _ IH]; intros lexeme.
  - cbn [lex_run lex_finish num_complete]. by rewrite app_nil_r.
  - cbn [lex_run lex_step num_step]. rewrite Hc. cbn [mbind option_bind].
    rewrite IH. cbn [fmap option_fmap option_map app].
    by rewrite <- app_assoc.
Qed.

Lemma start_step_digit d :
  is_digit d = true -> d <> 48 -> start_step d = Some (L_num N_int [d], []).
Proof.
  intros Hd Hnz. unfold start_step. rewrite Hd.
  unfold is_digit in Hd. apply andb_true_iff in Hd as [Hlo%N.leb_le Hhi%N.leb_le].
  repeat match goal with
         | |- context [d =? ?k] => destruct (N.eqb_spec d k); [lia|]
         end.
  done.
Qed.

(** The tokens of a decimal integer that does not start with a zero. *)
Lemma lex_run_integer d ds :
  is_digit d = true -> d <> 48 -> Forall (fun c => is_digit c = true) ds ->
  lex_run L_start (d :: ds) = Some [T_value (JNumber (d :: ds))].
Proof.
  intros Hd Hnz Hds. cbn [lex_run lex_step]. rewrite start_step_digit by done.
  cbn [mbind option_bind]. by rewrite lex_run_digits.
Qed.

Lemma is_integer_digits s :
  Forall (fun c => is_digit c = true) s ->
  is_integer s = true /\ List.filter is_digit s = s.
Proof.
  unfold is_integer. induction 1 as [|c s Hc _ [IH1 IH2]]; [done|].
  cbn [forallb List.filter]. by rewrite Hc, IH1, IH2.
Qed.

(** X22.  An answer that is one decimal integer of more digits than
    [int] converts (more than 640, and more than the limit, which is
    4300 unless it is set) is a JSON text, and yet it is displayed as
    raw text: [json.loads] raises on it. *)
Theorem show_response_long_integer w d ds :
  is_digit d = true -> d <> 48 -> Forall (fun c => is_digit c = true) ds ->
  640 < N.of_nat (length (d :: ds)) ->
  0 < int_max_str_digits w < N.of_nat (length (d :: ds)) ->
  json_decode (d :: ds) = Some (JNumber (d :: ds)) /\
  show_response w (d :: ds) = ([st_text (d :: ds)], Return tt).
Proof.
  intros Hd Hnz Hds Hlong [Hlimit Hover].
  pose proof (lex_run_integer d ds Hd Hnz Hds) as Hlex.
  split; [unfold json_decode; by rewrite Hlex|].
  rewrite show_response_eq. unfold json_loads_value. rewrite Hlex.
  cbn [mbind option_bind existsb int_too_long].
  destruct (is_integer_digits (d :: ds)) as [-> ->]; [by constructor|].
  by rewrite (proj2 (N.ltb_lt _ _) Hlong), (proj2 (N.ltb_lt _ _) Hlimit),
    (proj2 (N.ltb_lt _ _) Hover).
Qed.

(** X22 at the digit 1 written 4301 times. *)
Lemma show_response_long_integer_witness :
  json_decode (replicate 4301 49) = Some (JNumber (replicate 4301 49)) /\
  show_response upload_world (replicate 4301 49) =
    ([st_text (replicate 4301 49)], Return tt).
Proof.
  apply (show_response_long_integer upload_world 49 (replicate 4300 49)).
  - reflexivity.
  - done.
  - by apply Forall_replicate.
  - by vm_compute.
  - split; by vm_compute.
Defined.

Lemma lex_run_brackets c t k s :
  start_step c = Some (L_start, [t]) ->
  lex_run L_start (replicate k c ++ s) = (replicate k t ++.) <$> lex_run L_start s.
Proof.
  intros Hc. induction k as [|k IH].
  - cbn [replicate app]. destruct (lex_run L_start s); reflexivity.
  - cbn [replicate app lex_run lex_step]. rewrite Hc. cbn [mbind option_bind].
    rewrite IH. destruct (lex_run L_start s); reflexivity.
Qed.

Lemma lex_run_nested_arrays n :
  lex_run L_start (nested_arrays n) =
    Some (replicate n T_lbracket ++ replicate n T_rbracket).
Proof.
  unfold nested_arrays. rewrite (lex_run_brackets 91 T_lbracket) by done.
  rewrite <- (app_nil_r (replicate n 93)).
  rewrite (lex_run_brackets 93 T_rbracket) by done.
  cbn [lex_run lex_finish fmap option_fmap option_map]. by rewrite app_nil_r.
Qed.

Lemma nesting_ge depth ts : depth <= nesting depth ts.
Proof.
  revert depth. induction ts as [|t ts IH]; intros depth; [done|].
  destruct t; cbn [nesting]; try apply IH.
  - specialize (IH (depth + 1)). lia.
  - lia.
  - specialize (IH (depth + 1)). lia.
  - lia.
Qed.

Lemma nesting_open depth k ts :
  nesting depth (replicate k T_lbracket ++ ts) = nesting (depth + N.of_nat k) ts.
Proof.
  revert depth. induction k as [|k IH]; intros depth.
  - cbn [replicate app]. by rewrite N.add_0_r.
  - cbn [replicate app nesting]. rewrite IH. f_equal. lia.
Qed.

Lemma replicate_app_cons {A} k (x : A) l :
  replicate k x ++ x :: l = x :: replicate k x ++ l.
Proof. induction k as [|k IH]; [done|]. cbn [replicate app]. by rewrite IH. Qed.

(** The parser on arrays opened one inside the other, then closed. *)
Lemma parse_run_open k stack ts :
  parse_run (P_array_start stack) (replicate k T_lbracket ++ ts) =
    parse_run (P_array_start (replicate k (F_array []) ++ stack)) ts.
Proof.
  revert stack. induction k as [|k IH]; intros stack; [done|].
  cbn [replicate app parse_run parse_step value_step mbind option_bind].
  rewrite IH. by rewrite replicate_app_cons.
Qed.

Lemma parse_run_close k v :
  parse_run (complete v (replicate k (F_array []))) (replicate k T_rbracket) =
    Some (Nat.iter k (fun v => JArray [v]) v).
Proof.
  revert v. induction k as [|k IH]; intros v; [done|].
  cbn [replicate complete parse_run parse_step mbind option_bind app].
  rewrite IH. by rewrite Nat.iter_succ_r.
Qed.

(** X23.  An answer of arrays nested deeper than the interpreter can
    enter is a JSON text, and yet it is displayed as raw text:
    [json.loads] raises on it. *)
Theorem show_response_deep_nesting w n :
  recursion_limit w < N.of_nat (S n) ->
  json_decode (nested_arrays (S n)) =
    Some (Nat.iter n (fun v => JArray [v]) (JArray [])) /\
  show_response w (nested_arrays (S n)) =
    ([st_text (nested_arrays (S n))], Return tt).
Proof.
  intros Hdeep. split.
  - unfold json_decode. rewrite lex_run_nested_arrays.
    cbn [mbind option_bind replicate app parse_run parse_step value_step].
    rewrite parse_run_open, app_nil_r.
    cbn [parse_run parse_step mbind option_bind].
    apply parse_run_close.
  - rewrite show_response_eq. unfold json_loads_value.
    rewrite lex_run_nested_arrays. cbn [mbind option_bind].
    rewrite nesting_open.
    pose proof (nesting_ge (0 + N.of_nat (S n)) (replicate (S n) T_rbracket)) as Hge.
    rewrite (proj2 (N.ltb_lt _ _)) by lia. by rewrite orb_true_r.
Qed.

(** X23 at three arrays, where the interpreter can enter two. *)
Lemma show_response_deep_nesting_witness :
  recursion_limit shallow_world < 3 /\
  json_decode (lit "[[[]]]") = Some (JArray [JArray [JArray []]]) /\
  show_response shallow_world (lit "[[[]]]") = ([st_text (lit "[[[]]]")], Return tt).
Proof.
  split; [by vm_compute|].
  apply (show_response_deep_nesting shallow_world 2). by vm_compute.
Defined.
